(** * sea-session-alerts: a shallow embedding of [fishing_alert.py]

    The script evaluates fishing conditions for one coastal location:
    it derives flood-tide windows from high tides, keeps those that
    overlap a twilight window, scores them, selects one window per band
    and sends at most one notification per band and day.

    Conventions of the embedding.
    - A [datetime] is the number of microseconds since the Unix epoch
      (UTC), a [timedelta] a number of microseconds; both are [Z].  The
      range limits of Python's [datetime] (years 1 to 9999) are not
      modelled.
    - A number read from the forecast (a JSON number) and every number
      computed from it is a rational [Q]; comparisons are exact, the
      rounding of binary floating point is not modelled.
    - An exception that escapes a Python expression is a [Raise] result.
    - The persisted document [state.json] is a [gmap] from ISO dates to
      a [gmap] from band keys to booleans. *)

From Stdlib Require Import ZArith QArith Qabs Qround Lia Lqa List Ascii.
From stdpp Require Import gmap strings list sorting.

Local Open Scope Z_scope.

(** ** Numbers *)

Definition Qleb (x y : Q) : bool := Qle_bool x y.
Definition Qltb (x y : Q) : bool := negb (Qle_bool y x).

(** Python truthiness of a number: zero is false. *)
Definition truthy (x : Q) : bool := negb (Qeq_bool x 0).

(** ** Scoring helpers *)

Definition bass_sst_score (c : Q) : Z :=
  if Qleb 13.0 c then 2
  else if Qleb 12.0 c && Qltb c 13.0 then 1
  else 0.

Definition cod_sst_score (c : Q) : Z :=
  if Qleb 8.0 c && Qleb c 10.5 then 2
  else if Qleb 11.0 c && Qleb c 12.5 then 1
  else 0.

Definition wind_swell_ok (wind_kt swell_m : Q) : Z :=
  if Qleb swell_m 1.6 && Qleb wind_kt 18 then 2
  else if Qleb swell_m 2.2 && Qleb wind_kt 24 then 1
  else 0.

Definition pressure_trend_score (trend_hpa : Q) : Z :=
  if Qltb trend_hpa (-1.0) then 2
  else if Qleb (Qabs trend_hpa) 1.0 then 1
  else 0.

Definition label_from_score (x : Z) : string :=
  if 10 <=? x then "GREEN"
  else if (7 <=? x) && (x <=? 9) then "AMBER"
  else if (4 <=? x) && (x <=? 6) then "AMBER-"
  else "RED".

(** ** Time *)

Definition datetime := Z.
Definition timedelta := Z.

Definition td_minutes (m : Z) : timedelta := m * 60000000.
Definition td_hours (h : Z) : timedelta := h * 3600000000.
Definition td_days (d : Z) : timedelta := d * 86400000000.

(** [t.date()]: the day number of an instant (days since the epoch). *)
Definition date_of (t : datetime) : Z := t / 86400000000.

(** [dt.datetime(d.year, d.month, d.day, h, 0, tzinfo=utc)]. *)
Definition at_hour (d : Z) (h : Z) : datetime := td_days d + td_hours h.

(** [timedelta / 2]: true division of a timedelta by an integer rounds
    the microseconds to the nearest, halves to even. *)
Definition td_half (a : timedelta) : timedelta :=
  let q := a / 2 in
  let r := a mod 2 in
  if (r =? 1) && (q mod 2 =? 1) then q + 1 else q.

(** ** Utilities *)

Definition overlaps (a_start a_end b_start b_end : datetime) : bool :=
  Z.max a_start b_start <? Z.min a_end b_end.

Definition pick_flood_windows (high_tides : list datetime)
  : list (datetime * datetime) :=
  map (fun ht => (ht - td_hours 2, ht)) high_tides.

(** ** Twilight *)

(** The daylight collaborator: for a day, the sunrise and sunset
    instants, or [None] when the request fails. *)
Definition Daylight := Z -> option (datetime * datetime).

Definition Interval : Type := datetime * datetime.

Definition civil_twilight_for_day (sun : Daylight) (date_utc : Z)
  : option (Interval * Interval) :=
  match sun date_utc with
  | Some (sr, ss) =>
      let dawn := (sr - td_minutes 30, sr + td_minutes 30) in
      let dusk := (ss - td_minutes 30, ss + td_minutes 30) in
      Some (dawn, dusk)
  | None => None
  end.

(** ** Candidate windows (the first loop of [main]) *)

Definition Window : Type := datetime * datetime * string.

(** Lines 221-225: the label of a flood window against the two twilight
    windows of a day. *)
Definition twilight_label (fw_start fw_end : datetime) (dawn dusk : Interval)
  : option string :=
  let label : option string := None in
  let label :=
    if overlaps fw_start fw_end dawn.1 dawn.2 then Some "dawn" else label in
  let label :=
    if overlaps fw_start fw_end dusk.1 dusk.2
    then match label with None => Some "dusk" | Some l => Some l end
    else label in
  label.

(** The body of the inner loop: [None] stands for [continue]. *)
Definition candidate (now : datetime) (day : Z) (dawn dusk : Interval)
  (fw : Interval) : option Window :=
  let '(fw_start, fw_end) := fw in
  if negb (date_of fw_start =? day) then None
  else match twilight_label fw_start fw_end dawn dusk with
       | None => None
       | Some label =>
           if (fw_end <? now) || (now + td_hours 24 <? fw_start) then None
           else Some (fw_start, fw_end, label)
       end.

(** The body of the outer loop, for one day. *)
Definition windows_for_day (sun : Daylight) (now : datetime)
  (flood_windows : list Interval) (day : Z) : list Window :=
  match civil_twilight_for_day sun day with
  | None => []
  | Some (dawn, dusk) => omap (candidate now day dawn dusk) flood_windows
  end.

Definition build_windows (sun : Daylight) (now : datetime)
  (flood_windows : list Interval) (days : list Z) : list Window :=
  days ≫= windows_for_day sun now flood_windows.

(** [{now.date(), (now + 1 day).date()}] is a Python set of two dates;
    the order in which a set is iterated is not specified, so it is an
    input: [swap] tells whether tomorrow comes first. *)
Definition days_in_scope (now : datetime) (swap : bool) : list Z :=
  let today := date_of now in
  let tomorrow := date_of (now + td_days 1) in
  if swap then [tomorrow; today] else [today; tomorrow].

(** Lines 201-208: the approximate tides used when no high tide is known. *)
Definition approx_hts (now : datetime) : list datetime :=
  [date_of now; date_of (now + td_days 1)]
    ≫= (fun d => [at_hour d 6; at_hour d 18]).

Definition highs_or_fallback (now : datetime) (highs : list datetime)
  : list datetime :=
  match highs with
  | [] => approx_hts now
  | _ => highs
  end.

(** ** Exceptions *)

Inductive exn := ValueError | IndexError.

Inductive result (A : Type) :=
| Ok (a : A)
| Raise (e : exn).
Arguments Ok {A} a.
Arguments Raise {A} e.

(** Sequencing: an exception ends the computation.  The instances
    give [result] the notation [x ← m; k]. *)
#[global] Instance result_bind : MBind result := fun A B k m =>
  match m with
  | Ok a => k a
  | Raise e => Raise e
  end.

#[global] Instance result_ret : MRet result := fun A a => Ok a.

(** ** Sampling at the midpoint (the second loop of [main]) *)

(** The hourly series of the forecast; a series missing from the
    response is the empty list ([met["hourly"].get(key, [])]). *)
Record Hourly := {
  hours : list datetime;
  sst : list Q;
  wind : list Q;
  wind_dir : list Q;
  waveh : list Q;
  wavep : list Q;
  psl : list Q
}.

(** The scan of [min(iterable, key=...)] after its first element: a
    later element replaces the best one only when its key is strictly
    smaller, so the first of the smallest wins. *)
Fixpoint min_scan (key : nat -> Z) (best : nat) (rest : list nat) : nat :=
  match rest with
  | [] => best
  | i :: rest' =>
      if key i <? key best then min_scan key i rest'
      else min_scan key best rest'
  end.

(** [min(iterable, key=...)] raises [ValueError] on an empty iterable. *)
Definition py_min (key : nat -> Z) (xs : list nat) : result nat :=
  match xs with
  | [] => Raise ValueError
  | i :: rest => Ok (min_scan key i rest)
  end.

(** [range(n)]. *)
Definition range (n : nat) : list nat := seq 0 n.

(** [xs[idx] if idx < len(xs) else dflt], for [idx >= 0]. *)
Definition item_or (xs : list Q) (idx : nat) (dflt : Q) : Q :=
  if (idx <? length xs)%nat then nth idx xs dflt else dflt.

(** Lines 192-198: the pressure trend; an empty series raises
    [IndexError], which the bare [except] turns into [0.0]. *)
Definition pressure_trend (psl : list Q) : Q :=
  match last psl, psl !! (length psl / 2)%nat with
  | Some p_now, Some p_prev =>
      if truthy p_now && truthy p_prev then (p_now - p_prev)%Q else 0%Q
  | _, _ => 0%Q
  end.

Record Scored := {
  rec_start : datetime;
  rec_end : datetime;
  rec_label : string;
  rec_sst : Q;
  rec_wind_kt : Q;
  rec_wind_dir : Q;
  rec_wave_m : Q;
  rec_wavep : Q;
  rec_bass : Z;
  rec_cod : Z
}.

(** Line 236. *)
Definition nearest_index (hours : list datetime) (mid : datetime)
  : result nat :=
  py_min (fun i => Z.abs (nth i hours 0 - mid)) (range (length hours)).

(** Lines 244-247. *)
Definition bass_composite (val_sst wind_kt val_wave p_trend : Q) : Z :=
  bass_sst_score val_sst + 2 + wind_swell_ok wind_kt val_wave
  + pressure_trend_score p_trend + 1.

Definition cod_composite (val_sst val_wave p_trend : Q) : Z :=
  let c := cod_sst_score val_sst in
  let c := c + (if Qleb 0.8 val_wave && Qleb val_wave 1.8 then 2
                else if Qltb 1.8 val_wave then 1 else 0) in
  let c := c + (2 + pressure_trend_score p_trend + 1) in
  c.

(** The body of the scoring loop (lines 235-254). *)
Definition score_window (met : Hourly) (p_trend : Q) (w : Window)
  : result Scored :=
  let '(start, end_, label) := w in
  let mid := start + td_half (end_ - start) in
  idx ← nearest_index (hours met) mid;
  let val_sst := item_or (sst met) idx 12.0 in
  let val_wind := item_or (wind met) idx 6.0 in
  let val_wind_dir := item_or (wind_dir met) idx 225 in
  let val_wave := item_or (waveh met) idx 1.2 in
  let val_wavep := item_or (wavep met) idx 9.0 in
  let wind_kt := (val_wind * 1.94384)%Q in
  let b := bass_composite val_sst wind_kt val_wave p_trend in
  let c := cod_composite val_sst val_wave p_trend in
  Ok {| rec_start := start; rec_end := end_; rec_label := label;
        rec_sst := val_sst; rec_wind_kt := wind_kt;
        rec_wind_dir := val_wind_dir; rec_wave_m := val_wave;
        rec_wavep := val_wavep; rec_bass := b; rec_cod := c |}.

(** The scoring loop: the first exception ends it. *)
Fixpoint score_windows (met : Hourly) (p_trend : Q) (windows : list Window)
  : result (list Scored) :=
  match windows with
  | [] => Ok []
  | w :: rest =>
      r ← score_window met p_trend w;
      rs ← score_windows met p_trend rest;
      Ok (r :: rs)
  end.

(** ** Selection *)

Definition best_score (rec : Scored) : Z := Z.max (rec_bass rec) (rec_cod rec).

Definition greens (scored : list Scored) : list Scored :=
  List.filter (fun r => 10 <=? best_score r) scored.

Definition ambers (scored : list Scored) : list Scored :=
  List.filter (fun r => (7 <=? best_score r) && (best_score r <=? 9)) scored.

(** The sort key [(-best_score(r), r["start"])] and the order of
    Python tuples on it. *)
Definition sort_key (r : Scored) : Z * Z := (- best_score r, rec_start r).

Definition key_le (a b : Z * Z) : bool :=
  (a.1 <? b.1) || ((a.1 =? b.1) && (a.2 <=? b.2)).

(** [sorted(lst, key=...)] is a stable sort: elements with equal keys
    keep their order.  Insertion from the right, each element placed
    before the first one whose key is not smaller, is such a sort. *)
Fixpoint insert_by_key (x : Scored) (l : list Scored) : list Scored :=
  match l with
  | [] => [x]
  | y :: l' =>
      if key_le (sort_key x) (sort_key y) then x :: y :: l'
      else y :: insert_by_key x l'
  end.

Fixpoint sorted (lst : list Scored) : list Scored :=
  match lst with
  | [] => []
  | x :: rest => insert_by_key x (sorted rest)
  end.

Definition pick_best (lst : list Scored) : option Scored :=
  match lst with
  | [] => None
  | _ => head (sorted lst)
  end.

(** ** Notification *)

Record Config := {
  PUSHOVER_TOKEN : string;
  PUSHOVER_USER : string
}.

(** Python truthiness of a string: the empty string is false. *)
Definition nonempty (s : string) : bool := negb (String.eqb s "").

(** [PUSHOVER_TOKEN and PUSHOVER_USER], as a condition. *)
Definition configured (cfg : Config) : bool :=
  nonempty (PUSHOVER_TOKEN cfg) && nonempty (PUSHOVER_USER cfg).

(** The notification provider: [respond n] tells whether the request
    issued after [n] earlier ones is accepted ([raise_for_status]
    passes) or fails with a [RequestException]. *)
Definition Provider := nat -> bool.

(** A request to the provider: the band and the window of the message. *)
Definition Post : Type := string * Scored.

(** [send_push]: returns the acknowledgement, and the requests issued
    so far.  The text of the message is computed from the window, the
    band and the clock; it is not modelled, a request is recorded by
    its band and window. *)
Definition send_push (cfg : Config) (respond : Provider)
  (rec : Scored) (band : string) (posts : list Post) : bool * list Post :=
  if negb (configured cfg) then (false, posts)
  else (respond (length posts), posts ++ [(band, rec)]).

(** ** Persisted state *)

Abbreviation State := (gmap string (gmap string bool)).

(** [state.get(today, {}).get(key, False)]. *)
Definition sent_today (state : State) (today key : string) : bool :=
  default false (default ∅ (state !! today) !! key).

(** [state.setdefault(today, {})[key] = True]. *)
Definition mark_sent (state : State) (today key : string) : State :=
  <[today := <[key := true]> (default ∅ (state !! today))]> state.

(** The entry of a day and a band key in a document, if any. *)
Definition entry (state : State) (day key : string) : option bool :=
  state !! day ≫= (.!! key).

(** [state.json] before the run: absent, not valid JSON, or a document. *)
Inductive File :=
| NoFile
| Unparsable
| Document (st : State).

Definition load_state (f : File) : State :=
  match f with
  | Document st => st
  | NoFile | Unparsable => ∅
  end.

(** ** The gate (lines 273-282) *)

(** What the gate has done so far: the document in memory, the
    [updated] flag, the requests issued, and the calls of [send_push]
    with the band and the acknowledgement returned. *)
Record Gate := {
  g_state : State;
  g_updated : bool;
  g_posts : list Post;
  g_calls : list (string * bool)
}.

(** One of the two [if pick and not sent: if send_push(...): ...]
    statements; they differ in the band and its key only. *)
Definition gate_step (cfg : Config) (respond : Provider) (today : string)
  (band key : string) (pick : option Scored) (sent : bool) (g : Gate) : Gate :=
  match pick with
  | Some rec =>
      if negb sent then
        let '(ok, posts') := send_push cfg respond rec band (g_posts g) in
        if ok then
          {| g_state := mark_sent (g_state g) today key;
             g_updated := true;
             g_posts := posts';
             g_calls := g_calls g ++ [(band, true)] |}
        else
          {| g_state := g_state g;
             g_updated := g_updated g;
             g_posts := posts';
             g_calls := g_calls g ++ [(band, false)] |}
      else g
  | None => g
  end.

Definition dispatch (cfg : Config) (respond : Provider) (today : string)
  (state : State) (sent_green_today sent_amber_today : bool)
  (pick_green pick_amber : option Scored) : Gate :=
  let g := {| g_state := state; g_updated := false;
              g_posts := []; g_calls := [] |} in
  let g := gate_step cfg respond today "GREEN" "green"
             pick_green sent_green_today g in
  let g := gate_step cfg respond today "AMBER" "amber"
             pick_amber sent_amber_today g in
  g.

(** ** [main] *)

(** Everything a run reads: the state file, the two readings of the
    clock (the ISO date of line 171 and the instant of line 189), the
    iteration order of the set of days, the answers of the three data
    collaborators, the configuration and the notification provider. *)
Record Inputs := {
  in_disk : File;
  in_today : string;
  in_now : datetime;
  in_swap : bool;
  in_met : Hourly;
  in_highs : list datetime;
  in_sun : Daylight;
  in_cfg : Config;
  in_respond : Provider
}.

(** What a run that returns leaves behind: its exit code, the document
    handed to [write_text] (if [updated]), the calls of [send_push] and
    the requests issued. *)
Record Outcome := {
  exit_code : Z;
  written : option State;
  out_calls : list (string * bool);
  out_posts : list Post
}.

Definition main (i : Inputs) : result Outcome :=
  let state := load_state (in_disk i) in
  let today := in_today i in
  let sent_green_today := sent_today state today "green" in
  let sent_amber_today := sent_today state today "amber" in
  let met := in_met i in
  let now := in_now i in
  let p_trend := pressure_trend (psl met) in
  let highs := highs_or_fallback now (in_highs i) in
  let flood_windows := pick_flood_windows highs in
  let windows :=
    build_windows (in_sun i) now flood_windows
      (days_in_scope now (in_swap i)) in
  scored ← score_windows met p_trend windows;
  match scored with
  | [] => Ok {| exit_code := 0; written := None;
                out_calls := []; out_posts := [] |}
  | _ =>
      let pick_green := pick_best (greens scored) in
      let pick_amber := pick_best (ambers scored) in
      let g := dispatch (in_cfg i) (in_respond i) today state
                 sent_green_today sent_amber_today pick_green pick_amber in
      Ok {| exit_code := 0;
            written := if g_updated g then Some (g_state g) else None;
            out_calls := g_calls g;
            out_posts := g_posts g |}
  end.

(** ** Tide extremes ([fetch_worldtides_extremes]) *)

(** One entry of the provider's ["extremes"] list: its ["type"] (absent:
    [None]) and its ["date"], already parsed to an instant. *)
Record Extreme := {
  ext_type : option string;
  ext_date : datetime
}.

(** The answer of the tide provider: the request fails with a
    [RequestException], or the ["extremes"] list of the document (the
    empty list when the key is missing). *)
Inductive TideResponse :=
| TideFailure
| TideData (extremes : list Extreme).

(** [str.lower()], on ASCII letters. *)
Definition lower_ascii (c : ascii) : ascii :=
  let n := nat_of_ascii c in
  if ((65 <=? n) && (n <=? 90))%nat then ascii_of_nat (n + 32) else c.

Fixpoint lower (s : string) : string :=
  match s with
  | EmptyString => EmptyString
  | String c s' => String (lower_ascii c) (lower s')
  end.

(** [ex.get("type", "").lower() == "high"]. *)
Definition is_high (ex : Extreme) : bool :=
  String.eqb (lower (default EmptyString (ext_type ex))) "high".

(** [sorted] on instants.  Instants are totally ordered and equal
    instants are indistinguishable, so every sorting algorithm returns
    the same list; stdpp's merge sort stands for Python's. *)
Definition sorted_instants (l : list datetime) : list datetime :=
  merge_sort Z.le l.

Definition fetch_worldtides_extremes (WORLDTIDES_KEY : string)
  (resp : TideResponse) : list datetime :=
  if negb (nonempty WORLDTIDES_KEY) then []
  else match resp with
       | TideData extremes =>
           sorted_instants (ext_date <$> List.filter is_high extremes)
       | TideFailure => []
       end.

(** ** The compass label of [send_push] (lines 124-127) *)

Definition cardinal_dirs : list string :=
  ["N"; "NNE"; "NE"; "ENE"; "E"; "ESE"; "SE"; "SSE";
   "S"; "SSW"; "SW"; "WSW"; "W"; "WNW"; "NW"; "NNW"].

(** [x % 360] on numbers: the result has the sign of the divisor. *)
Definition mod360 (x : Q) : Q := (x - 360 * inject_Z (Qfloor (x / 360)))%Q.

(** [int(x)]: truncation towards zero. *)
Definition py_int (x : Q) : Z :=
  if Qleb 0 x then Qfloor x else Qceiling x.

(** [l[i]] for an integer [i]: a negative index counts from the end,
    an index out of range raises [IndexError]. *)
Definition py_index {A} (l : list A) (i : Z) : result A :=
  let n := Z.of_nat (length l) in
  let j := if i <? 0 then n + i else i in
  if (0 <=? j) && (j <? n)
  then match l !! Z.to_nat j with
       | Some x => Ok x
       | None => Raise IndexError
       end
  else Raise IndexError.

Definition cardinal_index (wind_dir_deg : Q) : Z :=
  py_int (mod360 wind_dir_deg / 22.5 + 0.5) mod 16.

Definition wind_cardinal (wind_dir_deg : Q) : result string :=
  py_index cardinal_dirs (cardinal_index wind_dir_deg).

(** * Notions used in the statements *)

(** Clock readings: [hm h m] is [h:m] UTC on day 0. *)
Definition hm (h m : Z) : datetime := td_hours h + td_minutes m.

(** The three ways a gate statement can go. *)
Inductive step_kind := Skipped | Failed | Acked.

Definition step_of (cfg : Config) (respond : Provider)
  (pick : option Scored) (sent : bool) (posts : list Post) : step_kind :=
  match pick with
  | None => Skipped
  | Some _ =>
      if sent then Skipped
      else if configured cfg && respond (length posts) then Acked
      else Failed
  end.

(** The calls and the requests a gate statement adds. *)
Definition calls_of (k : step_kind) (band : string) : list (string * bool) :=
  match k with
  | Skipped => []
  | Failed => [(band, false)]
  | Acked => [(band, true)]
  end.

Definition posts_of (k : step_kind) (cfg : Config) (band : string)
  (pick : option Scored) : list Post :=
  match k, pick with
  | Acked, Some rec => [(band, rec)]
  | Failed, Some rec => if configured cfg then [(band, rec)] else []
  | _, _ => []
  end.

(** The windows, the pressure trend and the gate of a run, as [main]
    computes them. *)
Definition main_windows (i : Inputs) : list Window :=
  build_windows (in_sun i) (in_now i)
    (pick_flood_windows (highs_or_fallback (in_now i) (in_highs i)))
    (days_in_scope (in_now i) (in_swap i)).

Definition main_scored (i : Inputs) : result (list Scored) :=
  score_windows (in_met i) (pressure_trend (psl (in_met i))) (main_windows i).

Definition main_gate (i : Inputs) (scored : list Scored) : Gate :=
  let state := load_state (in_disk i) in
  dispatch (in_cfg i) (in_respond i) (in_today i) state
    (sent_today state (in_today i) "green")
    (sent_today state (in_today i) "amber")
    (pick_best (greens scored)) (pick_best (ambers scored)).

(** The order of [sorted] on windows. *)
Definition key_leq (a b : Scored) : Prop :=
  key_le (sort_key a) (sort_key b) = true.

(** A flood window passes the time filter of line 228. *)
Definition in_time (now fw_start fw_end : datetime) : Prop :=
  now <= fw_end /\ fw_start <= now + td_hours 24.

(** The overlap of two intervals.  The program tests whether it is
    non-empty ([overlaps]) but never computes it; it is defined here to
    state what a candidate window is and is not. *)
Definition intersection (a b : Interval) : Interval :=
  (Z.max a.1 b.1, Z.min a.2 b.2).

(** A window whose interval is the overlap of one of the flood windows
    with a twilight window of one of the days. *)
Definition is_intersection (sun : Daylight) (flood_windows : list Interval)
  (days : list Z) (c : Window) : Prop :=
  exists fw day dawn dusk,
    fw ∈ flood_windows /\ day ∈ days
    /\ civil_twilight_for_day sun day = Some (dawn, dusk)
    /\ (c.1 = intersection fw dawn \/ c.1 = intersection fw dusk).

(** ** Example inputs *)

(** Sunrise at 05:30 and sunset at 17:30, every day. *)
Definition ex_sun : Daylight :=
  fun d => Some (td_days d + hm 5 30, td_days d + hm 17 30).

Definition ex_cfg : Config :=
  {| PUSHOVER_TOKEN := "token"; PUSHOVER_USER := "user" |}.

(** The forecast collaborator failed: [fetch_openmeteo] returned
    [{"hourly": {}}], every series is empty. *)
Definition no_forecast : Hourly :=
  {| hours := []; sst := []; wind := []; wind_dir := [];
     waveh := []; wavep := []; psl := [] |}.

(** Eight hourly samples from midnight of day 0: sst 13.5, wind 5 m/s,
    waves of 1.0 m, and a pressure that drops by 1.5 hPa between the
    middle and the last sample. *)
Definition ex_met : Hourly :=
  {| hours := td_hours <$> [0; 1; 2; 3; 4; 5; 6; 7];
     sst := replicate 8 13.5%Q;
     wind := replicate 8 5%Q;
     wind_dir := replicate 8 270%Q;
     waveh := replicate 8 1.0%Q;
     wavep := replicate 8 8%Q;
     psl := replicate 7 1010%Q ++ [1008.5%Q] |}.

(** A run at 03:00 of day 0, with no state file and no tide data. *)
Definition ex_run (met : Hourly) (cfg : Config) (respond : Provider) : Inputs :=
  {| in_disk := NoFile; in_today := "1970-01-01"; in_now := hm 3 0;
     in_swap := false; in_met := met; in_highs := []; in_sun := ex_sun;
     in_cfg := cfg; in_respond := respond |}.

Definition outcome_of (r : result Outcome) : Outcome :=
  match r with
  | Ok o => o
  | Raise _ => {| exit_code := 1; written := None;
                  out_calls := []; out_posts := [] |}
  end.

(** A run with the example forecast: both flood windows of day 0 are
    scored 9 for bass, and the AMBER notification is acknowledged. *)
Definition ex_outcome : Outcome :=
  outcome_of (main (ex_run ex_met ex_cfg (fun _ => true))).

(** The window scored in the examples. *)
Definition ex_scored : Scored :=
  {| rec_start := hm 4 0; rec_end := hm 6 0; rec_label := "dawn";
     rec_sst := 13.5; rec_wind_kt := 5 * 1.94384; rec_wind_dir := 270;
     rec_wave_m := 1.0; rec_wavep := 8; rec_bass := 9; rec_cod := 7 |}.

(** The document [{"2024-01-01": {"green": true}}] on 2024-01-01: a
    GREEN pick is not dispatched, an AMBER pick is. *)
Definition ex_state : State := {[ "2024-01-01" := {[ "green" := true ]} ]}.

(** Three AMBER windows: the second and third share the best score 9,
    the third starts first. *)
Definition ex_band : list Scored :=
  [ {| rec_start := hm 10 0; rec_end := hm 12 0; rec_label := "dawn";
       rec_sst := 12; rec_wind_kt := 10; rec_wind_dir := 225;
       rec_wave_m := 1; rec_wavep := 9; rec_bass := 8; rec_cod := 7 |};
    {| rec_start := hm 20 0; rec_end := hm 22 0; rec_label := "dusk";
       rec_sst := 12; rec_wind_kt := 10; rec_wind_dir := 225;
       rec_wave_m := 1; rec_wavep := 9; rec_bass := 9; rec_cod := 7 |};
    {| rec_start := hm 5 0; rec_end := hm 7 0; rec_label := "dawn";
       rec_sst := 12; rec_wind_kt := 10; rec_wind_dir := 225;
       rec_wave_m := 1; rec_wavep := 9; rec_bass := 7; rec_cod := 9 |} ].

(** Sunrise at 05:00 and sunset at 06:00: the flood window 04:00-06:00
    overlaps dawn (04:30-05:30) and dusk (05:30-06:30), and is labelled
    "dawn". *)
Definition ex_short_day : Daylight :=
  fun d => Some (td_days d + hm 5 0, td_days d + hm 6 0).

(** ** Inputs of the further properties *)

(** A forecast with timestamps [hs] and no value at all. *)
Definition values_missing (hs : list datetime) : Hourly :=
  {| hours := hs; sst := []; wind := []; wind_dir := [];
     waveh := []; wavep := []; psl := [] |}.

(** The daylight collaborator [sun], failing for day [d]. *)
Definition fail_day (sun : Daylight) (d : Z) : Daylight :=
  fun d' => if decide (d' = d) then None else sun d'.

(** Eight hourly samples of poor conditions: cold water, a gale, heavy
    swell and rising pressure. *)
Definition ex_poor_met : Hourly :=
  {| hours := td_hours <$> [0; 1; 2; 3; 4; 5; 6; 7];
     sst := replicate 8 5%Q;
     wind := replicate 8 30%Q;
     wind_dir := replicate 8 270%Q;
     waveh := replicate 8 3.0%Q;
     wavep := replicate 8 8%Q;
     psl := replicate 7 1010%Q ++ [1013%Q] |}.

(** The document written by the example run, and the same run again
    with that document on disk. *)
Definition ex_written : State := default ∅ (written ex_outcome).

Definition ex_second_run : Inputs :=
  {| in_disk := Document ex_written; in_today := "1970-01-01";
     in_now := hm 3 0; in_swap := false; in_met := ex_met; in_highs := [];
     in_sun := ex_sun; in_cfg := ex_cfg; in_respond := fun _ => true |}.

(** A tide document with two high tides out of order, a low tide and
    an entry without type. *)
Definition ex_extremes : list Extreme :=
  [ {| ext_type := Some "High"; ext_date := hm 18 10 |};
    {| ext_type := Some "Low"; ext_date := hm 12 0 |};
    {| ext_type := None; ext_date := hm 1 0 |};
    {| ext_type := Some "HIGH"; ext_date := hm 5 50 |} ].

(** * Properties *)

(** ** Overlap of half-open intervals *)

Lemma overlaps_true_iff a_start a_end b_start b_end :
  overlaps a_start a_end b_start b_end = true
  <-> Z.max a_start b_start < Z.min a_end b_end.
Proof. unfold overlaps. apply Z.ltb_lt. Qed.

Lemma overlaps_common_instant a_start a_end b_start b_end :
  overlaps a_start a_end b_start b_end = true
  <-> exists t, (a_start <= t < a_end) /\ (b_start <= t < b_end).
Proof.
  rewrite overlaps_true_iff. split.
  - intros H. exists (Z.max a_start b_start). lia.
  - intros (t & Ha & Hb). lia.
Qed.

(** C10: [overlaps] holds exactly when the larger start is strictly
    before the smaller end, that is when the two half-open intervals
    share an instant; intervals that only touch at an endpoint do not
    overlap, [overlaps(12:00,14:00, 13:30,14:30)] is true and
    [overlaps(12:00,14:00, 14:00,15:00)] is false. *)
Theorem overlaps_half_open (a_start a_end b_start b_end : datetime) :
  (overlaps a_start a_end b_start b_end = true
   <-> Z.max a_start b_start < Z.min a_end b_end)
  /\ (overlaps a_start a_end b_start b_end = true
      <-> exists t, (a_start <= t < a_end) /\ (b_start <= t < b_end))
  /\ overlaps a_start a_end a_end b_end = false
  /\ overlaps a_start a_end b_start a_start = false
  /\ overlaps (hm 12 0) (hm 14 0) (hm 13 30) (hm 14 30) = true
  /\ overlaps (hm 12 0) (hm 14 0) (hm 14 0) (hm 15 0) = false.
Proof.
  split; [apply overlaps_true_iff|].
  split; [apply overlaps_common_instant|].
  repeat split; try reflexivity; unfold overlaps; apply Z.ltb_ge; lia.
Qed.

(** ** Flood windows *)

(** C9: the flood window of the [i]-th high tide [t] is the pair
    [(t - 2h, t)], one window per high tide and in the same order; a
    high tide at 14:00 gives (12:00, 14:00). *)
Theorem flood_window_two_hours_before_high (high_tides : list datetime) (i : nat) :
  pick_flood_windows high_tides !! i
    = (fun t => (t - 7200000000, t)) <$> high_tides !! i
  /\ length (pick_flood_windows high_tides) = length high_tides
  /\ pick_flood_windows [hm 14 0] = [(hm 12 0, hm 14 0)].
Proof.
  split; [|split].
  - unfold pick_flood_windows. apply (list_lookup_fmap _ high_tides i).
  - unfold pick_flood_windows. apply length_map.
  - reflexivity.
Qed.

(** ** Score ranges *)

Lemma bass_sst_score_range c : 0 <= bass_sst_score c <= 2.
Proof. unfold bass_sst_score. repeat case_match; lia. Qed.

Lemma cod_sst_score_range c : 0 <= cod_sst_score c <= 2.
Proof. unfold cod_sst_score. repeat case_match; lia. Qed.

Lemma wind_swell_ok_range wind_kt swell_m : 0 <= wind_swell_ok wind_kt swell_m <= 2.
Proof. unfold wind_swell_ok. repeat case_match; lia. Qed.

Lemma pressure_trend_score_range trend_hpa : 0 <= pressure_trend_score trend_hpa <= 2.
Proof. unfold pressure_trend_score. repeat case_match; lia. Qed.

Lemma bass_composite_range val_sst wind_kt val_wave p_trend :
  3 <= bass_composite val_sst wind_kt val_wave p_trend <= 9.
Proof.
  unfold bass_composite.
  pose proof (bass_sst_score_range val_sst).
  pose proof (wind_swell_ok_range wind_kt val_wave).
  pose proof (pressure_trend_score_range p_trend).
  lia.
Qed.

Lemma cod_composite_range val_sst val_wave p_trend :
  3 <= cod_composite val_sst val_wave p_trend <= 9.
Proof.
  unfold cod_composite.
  pose proof (cod_sst_score_range val_sst).
  pose proof (pressure_trend_score_range p_trend).
  repeat case_match; lia.
Qed.

(** What [score_window] returns when it returns. *)
Lemma score_window_Ok met p_trend w r :
  score_window met p_trend w = Ok r ->
  exists idx,
    nearest_index (hours met) (w.1.1 + td_half (w.1.2 - w.1.1)) = Ok idx
    /\ rec_start r = w.1.1 /\ rec_end r = w.1.2 /\ rec_label r = w.2
    /\ rec_sst r = item_or (sst met) idx 12.0
    /\ rec_wind_kt r = (item_or (wind met) idx 6.0 * 1.94384)%Q
    /\ rec_wind_dir r = item_or (wind_dir met) idx 225
    /\ rec_wave_m r = item_or (waveh met) idx 1.2
    /\ rec_wavep r = item_or (wavep met) idx 9.0
    /\ rec_bass r
       = bass_composite (rec_sst r) (rec_wind_kt r) (rec_wave_m r) p_trend
    /\ rec_cod r = cod_composite (rec_sst r) (rec_wave_m r) p_trend.
Proof.
  destruct w as [[start end_] label]. unfold score_window. simpl.
  destruct (nearest_index _ _) as [idx|e]; simpl; [|discriminate].
  intros [= <-]. exists idx. simpl. repeat split; reflexivity.
Qed.

Lemma score_window_range met p_trend w r :
  score_window met p_trend w = Ok r ->
  3 <= rec_bass r <= 9 /\ 3 <= rec_cod r <= 9.
Proof.
  intros H. apply score_window_Ok in H as (idx & _ & _ & _ & _ & _ & _ & _ & _ & _ & Hb & Hc).
  rewrite Hb, Hc. split; [apply bass_composite_range | apply cod_composite_range].
Qed.

Lemma score_windows_Forall met p_trend ws scored :
  score_windows met p_trend ws = Ok scored ->
  Forall (fun r => exists w, w ∈ ws /\ score_window met p_trend w = Ok r) scored.
Proof.
  revert scored. induction ws as [|w ws IH]; simpl; intros scored H.
  - injection H as <-. constructor.
  - destruct (score_window met p_trend w) as [r|e] eqn:Hw; simpl in H; [|discriminate].
    destruct (score_windows met p_trend ws) as [rs|e] eqn:Hws; simpl in H; [|discriminate].
    injection H as <-. constructor.
    + exists w. split; [left | exact Hw].
    + eapply Forall_impl; [apply IH; reflexivity|].
      intros r' (w' & Hin & Hr'). exists w'. split; [right; exact Hin | exact Hr'].
Qed.

Lemma greens_empty met p_trend ws scored :
  score_windows met p_trend ws = Ok scored -> greens scored = [].
Proof.
  intros H. apply score_windows_Forall in H. unfold greens.
  induction H as [|r rs (w & _ & Hr) _ IH]; simpl; [reflexivity|].
  apply score_window_range in Hr. unfold best_score at 1.
  destruct (Z.leb_spec 10 (Z.max (rec_bass r) (rec_cod r))); [lia | exact IH].
Qed.

(** ** The persisted document *)

Lemma sent_today_entry (state : State) day key :
  sent_today state day key = default false (entry state day key).
Proof.
  unfold sent_today, entry. destruct (state !! day) as [m|]; simpl; [reflexivity|].
  by rewrite lookup_empty.
Qed.

Lemma entry_mark_sent_eq (state : State) today key :
  entry (mark_sent state today key) today key = Some true.
Proof.
  unfold entry, mark_sent. rewrite lookup_insert_eq. simpl.
  apply lookup_insert_eq.
Qed.

Lemma entry_mark_sent_ne (state : State) today key day k :
  day <> today \/ k <> key ->
  entry (mark_sent state today key) day k = entry state day k.
Proof.
  unfold entry, mark_sent. intros Hne.
  destruct (decide (day = today)) as [->|Hd].
  - rewrite lookup_insert_eq. simpl.
    destruct Hne as [Hne|Hne]; [done|].
    rewrite lookup_insert_ne by done.
    destruct (state !! today) as [m|]; simpl; [reflexivity | apply lookup_empty].
  - by rewrite lookup_insert_ne.
Qed.

Lemma entry_mark_sent (state : State) today key day k :
  entry (mark_sent state today key) day k
  = if decide (day = today /\ k = key) then Some true else entry state day k.
Proof.
  case_decide as H.
  - destruct H as [-> ->]. apply entry_mark_sent_eq.
  - apply entry_mark_sent_ne.
    destruct (decide (day = today)); [right | left]; naive_solver.
Qed.

(** ** The gate *)

Lemma send_push_spec cfg respond rec band posts :
  send_push cfg respond rec band posts
  = if configured cfg
    then (respond (length posts), posts ++ [(band, rec)])
    else (false, posts).
Proof. unfold send_push. by destruct (configured cfg). Qed.

Lemma step_of_Skipped cfg respond pick sent posts :
  step_of cfg respond pick sent posts = Skipped <->
  pick = None \/ sent = true.
Proof.
  unfold step_of. destruct pick as [rec|]; [|by intuition].
  destruct sent; [by intuition|].
  destruct (configured cfg && respond _); split; intros H; try done;
    destruct H; done.
Qed.

Lemma step_of_Failed cfg respond pick sent posts :
  step_of cfg respond pick sent posts = Failed <->
  is_Some pick /\ sent = false
  /\ (configured cfg = false \/ respond (length posts) = false).
Proof.
  unfold step_of. destruct pick as [rec|].
  - destruct sent; [by intuition|].
    destruct (configured cfg), (respond _); simpl; split; try done;
      try (intros _; split; [by eexists | by auto]).
    intros (_ & _ & [?|?]); done.
  - split; [done|]. by intros [[? ?] _].
Qed.

Lemma step_of_Acked cfg respond pick sent posts :
  step_of cfg respond pick sent posts = Acked <->
  is_Some pick /\ sent = false
  /\ configured cfg = true /\ respond (length posts) = true.
Proof.
  unfold step_of. destruct pick as [rec|].
  - destruct sent; [by intuition|].
    destruct (configured cfg), (respond _); simpl; split; try done;
      try (intros _; split; [by eexists | by auto]);
      intros (_ & _ & ? & ?); done.
  - split; [done|]. by intros [[? ?] _].
Qed.

Lemma gate_step_eq cfg respond today band key pick sent g :
  let k := step_of cfg respond pick sent (g_posts g) in
  gate_step cfg respond today band key pick sent g
  = {| g_state := match k with
                  | Acked => mark_sent (g_state g) today key
                  | _ => g_state g
                  end;
       g_updated := match k with Acked => true | _ => g_updated g end;
       g_posts := g_posts g ++ posts_of k cfg band pick;
       g_calls := g_calls g ++ calls_of k band |}.
Proof.
  destruct g as [st up posts calls].
  unfold step_of, gate_step; simpl. destruct pick as [rec|]; simpl.
  - destruct sent; simpl; [by rewrite !app_nil_r|].
    rewrite send_push_spec.
    destruct (configured cfg) eqn:Hc; simpl.
    + destruct (respond _); simpl; by rewrite ?Hc.
    + by rewrite Hc, app_nil_r.
  - by rewrite !app_nil_r.
Qed.

(** The two gate statements of a run, by what each of them did. *)
Lemma dispatch_eq cfg respond today (state : State) sg sa pg pa :
  let k1 := step_of cfg respond pg sg [] in
  let k2 := step_of cfg respond pa sa (posts_of k1 cfg "GREEN" pg) in
  dispatch cfg respond today state sg sa pg pa
  = {| g_state :=
         let st := match k1 with
                   | Acked => mark_sent state today "green"
                   | _ => state
                   end in
         match k2 with
         | Acked => mark_sent st today "amber"
         | _ => st
         end;
       g_updated := match k2 with
                    | Acked => true
                    | _ => match k1 with Acked => true | _ => false end
                    end;
       g_posts := posts_of k1 cfg "GREEN" pg ++ posts_of k2 cfg "AMBER" pa;
       g_calls := calls_of k1 "GREEN" ++ calls_of k2 "AMBER" |}.
Proof.
  unfold dispatch. rewrite !gate_step_eq. simpl. reflexivity.
Qed.

Lemma main_Ok i o :
  main i = Ok o ->
  exists scored, main_scored i = Ok scored
    /\ ((scored = []
         /\ o = {| exit_code := 0; written := None;
                   out_calls := []; out_posts := [] |})
        \/ (scored <> []
            /\ o = {| exit_code := 0;
                      written := if g_updated (main_gate i scored)
                                 then Some (g_state (main_gate i scored))
                                 else None;
                      out_calls := g_calls (main_gate i scored);
                      out_posts := g_posts (main_gate i scored) |})).
Proof.
  unfold main. fold (main_windows i). fold (main_scored i).
  destruct (main_scored i) as [scored|e]; simpl; [|discriminate].
  intros H. exists scored. split; [reflexivity|].
  destruct scored as [|r rs]; injection H as <-; [left | right]; done.
Qed.


Lemma dispatch_no_green cfg respond today (state : State) sg sa pa :
  let g := dispatch cfg respond today state sg sa None pa in
  (forall ack, ("GREEN", ack) ∉ g_calls g)
  /\ (forall rec, ("GREEN", rec) ∉ g_posts g)
  /\ entry (g_state g) today "green" = entry state today "green".
Proof.
  rewrite dispatch_eq. simpl.
  destruct (step_of cfg respond pa sa []) eqn:Hk, pa as [rec|]; simpl;
    try destruct (configured cfg); simpl;
    repeat split; intros;
    rewrite ?list_elem_of_singleton; try apply not_elem_of_nil;
    try congruence;
    apply entry_mark_sent_ne; right; done.
Qed.

(** C3: each composite score lies between 3 and 9, so does the better
    of the two for every scored window; no scored window is a GREEN
    candidate, the GREEN selection is always empty, and a run never
    calls the notifier for the GREEN band nor changes the [green]
    entry of the day. *)
Theorem composite_scores_never_green :
  (forall val_sst wind_kt val_wave p_trend,
      3 <= bass_composite val_sst wind_kt val_wave p_trend <= 9
      /\ 3 <= cod_composite val_sst val_wave p_trend <= 9)
  /\ (forall met p_trend w r,
         score_window met p_trend w = Ok r ->
         3 <= rec_bass r <= 9 /\ 3 <= rec_cod r <= 9
         /\ 3 <= best_score r <= 9
         /\ (10 <=? best_score r) = false)
  /\ (forall met p_trend ws scored,
         score_windows met p_trend ws = Ok scored ->
         greens scored = [] /\ pick_best (greens scored) = None)
  /\ (forall i o,
         main i = Ok o ->
         (forall ack, ("GREEN", ack) ∉ out_calls o)
         /\ (forall rec, ("GREEN", rec) ∉ out_posts o)
         /\ (forall st, written o = Some st ->
               entry st (in_today i) "green"
               = entry (load_state (in_disk i)) (in_today i) "green")).
Proof.
  split; [|split; [|split]].
  - intros. split; [apply bass_composite_range | apply cod_composite_range].
  - intros met p_trend w r H. apply score_window_range in H as [Hb Hc].
    unfold best_score. repeat split; lia.
  - intros met p_trend ws scored H. apply greens_empty in H. by rewrite H.
  - intros i o H. apply main_Ok in H as (scored & Hs & [[-> ->]|[Hne ->]]); simpl.
    + repeat split; intros; try apply not_elem_of_nil; discriminate.
    + unfold main_gate. rewrite (greens_empty _ _ _ _ Hs). simpl.
      match goal with |- context [dispatch ?c ?r ?t ?s ?a ?b None ?p] =>
        pose proof (dispatch_no_green c r t s a b p) as (H1 & H2 & H3);
        set (g := dispatch c r t s a b None p) in * end.
      repeat split; [apply H1 | apply H2 |].
      intros st. destruct (g_updated g); [|discriminate]. by intros [= <-].
Qed.

(** ** Selection: [sorted] and [pick_best] *)

Lemma key_le_spec a b :
  key_le a b = true <-> a.1 < b.1 \/ (a.1 = b.1 /\ a.2 <= b.2).
Proof. unfold key_le. lia. Qed.

Lemma key_le_false a b :
  key_le a b = false -> key_le b a = true /\ a <> b.
Proof.
  intros H. split.
  - apply key_le_spec. apply not_true_iff_false in H.
    rewrite key_le_spec in H. lia.
  - intros ->. apply not_true_iff_false in H. apply H, key_le_spec. lia.
Qed.

#[local] Instance key_leq_trans : Transitive key_leq.
Proof.
  intros a b c. unfold key_leq. rewrite !key_le_spec. lia.
Qed.

Lemma insert_by_key_perm x l : insert_by_key x l ≡ₚ x :: l.
Proof.
  induction l as [|y l IH]; simpl; [reflexivity|].
  destruct (key_le _ _); [reflexivity|].
  rewrite IH. apply Permutation_swap.
Qed.

Lemma sorted_perm lst : sorted lst ≡ₚ lst.
Proof.
  induction lst as [|x lst IH]; simpl; [reflexivity|].
  by rewrite insert_by_key_perm, IH.
Qed.

Lemma insert_by_key_sorted x l :
  StronglySorted key_leq l -> StronglySorted key_leq (insert_by_key x l).
Proof.
  induction 1 as [|y l Hs IH Hy]; simpl.
  - repeat constructor.
  - destruct (key_le (sort_key x) (sort_key y)) eqn:Hxy.
    + constructor; [by constructor|].
      constructor; [exact Hxy|].
      eapply Forall_impl; [exact Hy|]. intros z Hz. by transitivity y.
    + constructor; [exact IH|].
      rewrite insert_by_key_perm. constructor; [|exact Hy].
      by apply key_le_false in Hxy as [? _].
Qed.

Lemma sorted_sorted lst : StronglySorted key_leq (sorted lst).
Proof.
  induction lst as [|x lst IH]; simpl; [constructor|].
  by apply insert_by_key_sorted.
Qed.

(** Stability: the elements with a given key come out of [sorted] in
    the order they went in. *)
Lemma insert_by_key_stable k x l :
  filter (fun r => sort_key r = k) (insert_by_key x l)
  = filter (fun r => sort_key r = k) (x :: l).
Proof.
  induction l as [|y l IH]; simpl; [reflexivity|].
  destruct (key_le (sort_key x) (sort_key y)) eqn:Hxy; [reflexivity|].
  apply key_le_false in Hxy as [_ Hne].
  rewrite (filter_cons _ y (insert_by_key x l)), IH.
  rewrite !filter_cons. repeat case_decide; congruence.
Qed.

Lemma sorted_stable k lst :
  filter (fun r => sort_key r = k) (sorted lst)
  = filter (fun r => sort_key r = k) lst.
Proof.
  induction lst as [|x lst IH]; simpl; [reflexivity|].
  rewrite insert_by_key_stable, !filter_cons, IH. reflexivity.
Qed.

Lemma pick_best_nonempty lst :
  lst <> [] -> exists r, pick_best lst = Some r.
Proof.
  intros Hne. unfold pick_best.
  destruct lst as [|x rest]; [done|].
  destruct (sorted (x :: rest)) as [|r tl] eqn:Hs; [|by exists r].
  pose proof (sorted_perm (x :: rest)) as Hp. rewrite Hs in Hp.
  by apply Permutation_nil_l in Hp.
Qed.

Lemma pick_best_Some lst r :
  pick_best lst = Some r ->
  r ∈ lst
  /\ (forall r', r' ∈ lst -> key_leq r r')
  /\ head (filter (fun x => sort_key x = sort_key r) lst) = Some r.
Proof.
  unfold pick_best. destruct lst as [|x rest]; [done|].
  destruct (sorted (x :: rest)) as [|r0 tl] eqn:Hs; [done|].
  simpl. intros [= ->].
  pose proof (sorted_perm (x :: rest)) as Hp. rewrite Hs in Hp.
  pose proof (sorted_sorted (x :: rest)) as Hsorted. rewrite Hs in Hsorted.
  apply StronglySorted_inv in Hsorted as [_ Hall].
  split; [|split].
  - rewrite <- Hp. left.
  - intros r' Hr'. rewrite <- Hp in Hr'.
    apply elem_of_cons in Hr' as [->|Hr'].
    + apply key_le_spec. lia.
    + by apply (proj1 (Forall_forall _ _) Hall).
  - rewrite <- (sorted_stable (sort_key r) (x :: rest)), Hs.
    by rewrite filter_cons_True.
Qed.

(** C7: for a non-empty list [pick_best] returns one of its windows,
    with the highest [best_score] and, among those, the earliest start
    (the first such window of the list when several agree on both);
    for the empty list it returns [None]. *)
Theorem pick_best_highest_then_earliest (lst : list Scored) :
  (lst = [] -> pick_best lst = None)
  /\ (lst <> [] ->
      exists r, pick_best lst = Some r
        /\ r ∈ lst
        /\ (forall r', r' ∈ lst ->
              best_score r' <= best_score r
              /\ (best_score r' = best_score r -> rec_start r <= rec_start r'))
        /\ head (filter (fun x => best_score x = best_score r
                                  /\ rec_start x = rec_start r) lst) = Some r).
Proof.
  split; [by intros ->|].
  intros Hne. destruct (pick_best_nonempty lst Hne) as [r Hr].
  exists r. split; [exact Hr|].
  apply pick_best_Some in Hr as (Hin & Hmin & Hfirst).
  split; [exact Hin|]. split.
  - intros r' Hr'. specialize (Hmin r' Hr').
    apply key_le_spec in Hmin. unfold sort_key in Hmin. simpl in Hmin. lia.
  - rewrite <- Hfirst. f_equal. apply list_filter_iff.
    intros x. unfold sort_key. split.
    + intros [-> ->]. reflexivity.
    + intros [= H1 H2]. split; [lia | exact H2].
Qed.

(** ** The gate: what a run changes in the document *)

Lemma acked_call cfg respond today (state : State) sg sa pg pa band :
  let g := dispatch cfg respond today state sg sa pg pa in
  (band, true) ∈ g_calls g ->
  configured cfg = true
  /\ exists n rec, g_posts g !! n = Some (band, rec) /\ respond n = true.
Proof.
  intros g. subst g. rewrite dispatch_eq. simpl.
  set (k1 := step_of cfg respond pg sg []).
  set (k2 := step_of cfg respond pa sa _).
  intros [H|H]%elem_of_app.
  - destruct k1 eqn:Hk1; simpl in H;
      [by apply not_elem_of_nil in H | by apply list_elem_of_singleton in H |].
    apply list_elem_of_singleton in H. injection H as ->.
    apply step_of_Acked in Hk1 as ([rec ->] & _ & Hc & Hr).
    split; [done|]. exists 0%nat, rec. simpl. done.
  - destruct k2 eqn:Hk2; simpl in H;
      [by apply not_elem_of_nil in H | by apply list_elem_of_singleton in H |].
    apply list_elem_of_singleton in H. injection H as ->.
    apply step_of_Acked in Hk2 as ([rec ->] & _ & Hc & Hr).
    split; [done|]. exists (length (posts_of k1 cfg "GREEN" pg)), rec.
    split; [|done]. simpl. by apply list_lookup_middle.
Qed.

Lemma changed_entry cfg respond today (state : State) sg sa pg pa day key :
  let g := dispatch cfg respond today state sg sa pg pa in
  entry (g_state g) day key <> entry state day key ->
  day = today /\ entry (g_state g) day key = Some true
  /\ ((key = "green" /\ ("GREEN", true) ∈ g_calls g)
      \/ (key = "amber" /\ ("AMBER", true) ∈ g_calls g)).
Proof.
  intros g. subst g. rewrite dispatch_eq. simpl.
  destruct (step_of cfg respond pg sg []) eqn:Hk1;
  destruct (step_of cfg respond pa sa _) eqn:Hk2; simpl;
    rewrite ?entry_mark_sent; repeat case_decide; intros Hne;
    try (exfalso; apply Hne; reflexivity);
    repeat match goal with H : _ /\ _ |- _ => destruct H as [-> ->] end;
    (split; [reflexivity|]); (split; [reflexivity|]);
    rewrite ?elem_of_cons; first [left; split; [reflexivity|]; tauto | right; split; [reflexivity|]; tauto].
Qed.

Lemma unacked_entry cfg respond today (state : State) sg sa pg pa band key :
  (band, key) = ("GREEN", "green") \/ (band, key) = ("AMBER", "amber") ->
  let g := dispatch cfg respond today state sg sa pg pa in
  (band, true) ∉ g_calls g ->
  entry (g_state g) today key = entry state today key.
Proof.
  intros Hbk g Hn.
  destruct (decide (entry (g_state g) today key = entry state today key))
    as [He|Hd]; [exact He|].
  exfalso. apply changed_entry in Hd as (_ & _ & [[-> Hc]|[-> Hc]]);
    destruct Hbk as [[= -> ]|[= ->]]; done.
Qed.

Lemma updated_iff cfg respond today (state : State) sg sa pg pa :
  let g := dispatch cfg respond today state sg sa pg pa in
  (g_updated g = true <-> exists band, (band, true) ∈ g_calls g)
  /\ (g_updated g = false -> g_state g = state).
Proof.
  intros g. subst g. rewrite dispatch_eq. simpl.
  destruct (step_of cfg respond pg sg []) eqn:Hk1;
  destruct (step_of cfg respond pa sa _) eqn:Hk2; simpl;
    (split; [split|]); try done;
    try (intros [b Hb]; exfalso; revert Hb;
         rewrite ?elem_of_cons, ?elem_of_nil; intuition congruence);
    intros _;
    first [ exists "GREEN"; rewrite ?elem_of_cons; tauto
          | exists "AMBER"; rewrite ?elem_of_cons; tauto ].
Qed.

Lemma unconfigured_dispatch cfg respond today (state : State) sg sa pg pa :
  configured cfg = false ->
  let g := dispatch cfg respond today state sg sa pg pa in
  g_state g = state /\ g_updated g = false /\ g_posts g = []
  /\ forall band ack, (band, ack) ∈ g_calls g -> ack = false.
Proof.
  intros Hc g.
  assert (Hno : forall band, (band, true) ∉ g_calls g).
  { intros band Hin. apply acked_call in Hin as [Hin _]. congruence. }
  assert (Hup : g_updated g = false).
  { destruct (g_updated g) eqn:Hu; [|reflexivity].
    apply updated_iff in Hu as [band Hb]. by apply Hno in Hb. }
  split; [by apply updated_iff|]. split; [exact Hup|]. split.
  - subst g. rewrite dispatch_eq. simpl.
    destruct (step_of cfg respond pg sg []) eqn:Hk1.
    + destruct (step_of cfg respond pa sa _) eqn:Hk2, pg, pa; simpl;
        rewrite ?Hc; try reflexivity;
        apply step_of_Acked in Hk2 as (_ & _ & ? & _); congruence.
    + destruct (step_of cfg respond pa sa _) eqn:Hk2, pg, pa; simpl;
        rewrite ?Hc; try reflexivity;
        apply step_of_Acked in Hk2 as (_ & _ & ? & _); congruence.
    + apply step_of_Acked in Hk1 as (_ & _ & ? & _). congruence.
  - intros band [|] Hin; [by apply Hno in Hin | reflexivity].
Qed.

(** C4: the gate changes an entry of the document only for today and
    only to [true], and only for a band whose [send_push] call was
    acknowledged; an acknowledgement needs credentials and an accepted
    request.  So when the dispatch of a band fails or the credentials
    are missing, the band's entry is what it was, and with no
    acknowledgement at all nothing is written. *)
Theorem band_marked_only_after_ack :
  (forall cfg respond today (state : State) sg sa pg pa,
      let g := dispatch cfg respond today state sg sa pg pa in
      (("GREEN", true) ∉ g_calls g ->
         entry (g_state g) today "green" = entry state today "green")
      /\ (("AMBER", true) ∉ g_calls g ->
         entry (g_state g) today "amber" = entry state today "amber")
      /\ (forall day key,
            entry (g_state g) day key <> entry state day key ->
            day = today /\ entry (g_state g) day key = Some true
            /\ ((key = "green" /\ ("GREEN", true) ∈ g_calls g)
                \/ (key = "amber" /\ ("AMBER", true) ∈ g_calls g)))
      /\ (forall band, (band, true) ∈ g_calls g ->
            configured cfg = true
            /\ exists n rec,
                g_posts g !! n = Some (band, rec) /\ respond n = true)
      /\ (configured cfg = false ->
            g_state g = state /\ g_updated g = false /\ g_posts g = [])
      /\ (g_updated g = true <-> exists band, (band, true) ∈ g_calls g)
      /\ (g_updated g = false -> g_state g = state))
  /\ (forall i o,
        main i = Ok o ->
        (forall st day key,
            written o = Some st ->
            entry st day key <> entry (load_state (in_disk i)) day key ->
            day = in_today i /\ entry st day key = Some true
            /\ ((key = "green" /\ ("GREEN", true) ∈ out_calls o)
                \/ (key = "amber" /\ ("AMBER", true) ∈ out_calls o)))
        /\ ((forall band, (band, true) ∉ out_calls o) -> written o = None)
        /\ (configured (in_cfg i) = false ->
              written o = None /\ out_posts o = [])).
Proof.
  split.
  - intros cfg respond today state sg sa pg pa g.
    split; [by apply (unacked_entry _ _ _ _ _ _ _ _ "GREEN" "green"); auto|].
    split; [by apply (unacked_entry _ _ _ _ _ _ _ _ "AMBER" "amber"); auto|].
    split; [intros day key; apply changed_entry|].
    split; [intros band; apply acked_call|].
    split; [intros Hc; pose proof (unconfigured_dispatch _ respond today state
                                     sg sa pg pa Hc) as (? & ? & ? & _); done|].
    apply updated_iff.
  - intros i o H.
    apply main_Ok in H as (scored & Hs & [[-> ->]|[Hne ->]]); simpl.
    + repeat split; intros; done.
    + set (g := main_gate i scored). split; [|split].
      * intros st day key Hw Hd. destruct (g_updated g); [|done].
        injection Hw as <-. by apply changed_entry in Hd.
      * intros Hno. destruct (g_updated g) eqn:Hu; [|done].
        apply updated_iff in Hu as [band Hb]. by apply Hno in Hb.
      * intros Hc.
        pose proof (unconfigured_dispatch _ (in_respond i) (in_today i)
          (load_state (in_disk i))
          (sent_today (load_state (in_disk i)) (in_today i) "green")
          (sent_today (load_state (in_disk i)) (in_today i) "amber")
          (pick_best (greens scored)) (pick_best (ambers scored)) Hc)
          as (_ & Hu & Hp & _).
        fold (main_gate i scored) in Hu, Hp. fold g in Hu, Hp.
        by rewrite Hu, Hp.
Qed.

(** ** The gate: which bands are dispatched *)

Lemma calls_of_band k band b ack : (b, ack) ∈ calls_of k band -> b = band.
Proof.
  destruct k; simpl; rewrite ?list_elem_of_singleton;
    [by intros ?%not_elem_of_nil | congruence | congruence].
Qed.

Lemma posts_of_band k cfg band pick b rec :
  (b, rec) ∈ posts_of k cfg band pick -> b = band.
Proof.
  destruct k, pick as [r|]; simpl; try destruct (configured cfg);
    rewrite ?list_elem_of_singleton;
    try (by intros ?%not_elem_of_nil); congruence.
Qed.

Lemma calls_of_attempt cfg respond pick sent posts band :
  sent = false -> is_Some pick ->
  exists ack, calls_of (step_of cfg respond pick sent posts) band = [(band, ack)].
Proof.
  intros -> [rec ->]. unfold step_of.
  destruct (configured cfg && respond _); simpl; eauto.
Qed.

Lemma posts_of_attempt cfg respond pick sent posts band :
  sent = false -> configured cfg = true ->
  posts_of (step_of cfg respond pick sent posts) cfg band pick
  = match pick with Some rec => [(band, rec)] | None => [] end.
Proof.
  intros -> Hc. unfold step_of. destruct pick as [rec|]; [|done].
  rewrite Hc. simpl. destruct (respond _); simpl; by rewrite ?Hc.
Qed.

Lemma dispatch_gate cfg respond today (state : State) sg sa pg pa :
  let g := dispatch cfg respond today state sg sa pg pa in
  (sg = true ->
     (forall ack, ("GREEN", ack) ∉ g_calls g)
     /\ (forall rec, ("GREEN", rec) ∉ g_posts g))
  /\ (sa = true ->
     (forall ack, ("AMBER", ack) ∉ g_calls g)
     /\ (forall rec, ("AMBER", rec) ∉ g_posts g))
  /\ (sg = false -> is_Some pg -> exists ack, ("GREEN", ack) ∈ g_calls g)
  /\ (sa = false -> is_Some pa -> exists ack, ("AMBER", ack) ∈ g_calls g)
  /\ (sg = false -> configured cfg = true ->
      forall rec, pg = Some rec -> ("GREEN", rec) ∈ g_posts g)
  /\ (sa = false -> configured cfg = true ->
      forall rec, pa = Some rec -> ("AMBER", rec) ∈ g_posts g)
  /\ NoDup (g_calls g).*1
  /\ NoDup (g_posts g).*1.
Proof.
  intros g. subst g. rewrite dispatch_eq. simpl.
  set (k1 := step_of cfg respond pg sg []).
  set (k2 := step_of cfg respond pa sa _).
  assert (Hg : sg = true -> k1 = Skipped) by (intros; apply step_of_Skipped; auto).
  assert (Ha : sa = true -> k2 = Skipped) by (intros; apply step_of_Skipped; auto).
  split; [intros Hs; rewrite (Hg Hs); simpl; split|].
  { intros ack Hin. by apply calls_of_band in Hin. }
  { intros rec Hin. by apply posts_of_band in Hin. }
  split; [intros Hs; rewrite (Ha Hs), !app_nil_r; split|].
  { intros ack Hin. by apply calls_of_band in Hin. }
  { intros rec Hin. by apply posts_of_band in Hin. }
  split.
  { intros Hs Hp.
    destruct (calls_of_attempt cfg respond pg sg [] "GREEN" Hs Hp) as [ack Hc].
    exists ack. apply elem_of_app. left. fold k1 in Hc. rewrite Hc. left. }
  split.
  { intros Hs Hp.
    destruct (calls_of_attempt cfg respond pa sa (posts_of k1 cfg "GREEN" pg)
                "AMBER" Hs Hp) as [ack Hc].
    exists ack. apply elem_of_app. right. fold k2 in Hc. rewrite Hc. left. }
  split.
  { intros Hs Hc rec ->. apply elem_of_app. left. subst k1.
    rewrite posts_of_attempt by done. left. }
  split.
  { intros Hs Hc rec ->. apply elem_of_app. right. subst k2.
    rewrite posts_of_attempt by done. left. }
  split.
  - destruct k1, k2; simpl; apply (bool_decide_unpack _); by vm_compute.
  - destruct k1, k2, pg, pa; simpl; try destruct (configured cfg); simpl;
      apply (bool_decide_unpack _); by vm_compute.
Qed.

Lemma acked_is_sent cfg respond today (state : State) sg sa pg pa band key :
  (band, key) = ("GREEN", "green") \/ (band, key) = ("AMBER", "amber") ->
  let g := dispatch cfg respond today state sg sa pg pa in
  (band, true) ∈ g_calls g -> sent_today (g_state g) today key = true.
Proof.
  intros Hbk g. subst g. rewrite dispatch_eq, sent_today_entry. simpl.
  set (k1 := step_of cfg respond pg sg []).
  set (k2 := step_of cfg respond pa sa _).
  intros [Hin|Hin]%elem_of_app;
    pose proof (calls_of_band _ _ _ _ Hin) as Hb;
    destruct Hbk as [[= -> ->]|[= -> ->]]; try discriminate.
  - destruct k1; simpl in Hin;
      [by apply not_elem_of_nil in Hin | by apply list_elem_of_singleton in Hin |].
    destruct k2; rewrite ?entry_mark_sent; repeat case_decide; naive_solver.
  - destruct k2; simpl in Hin;
      [by apply not_elem_of_nil in Hin | by apply list_elem_of_singleton in Hin |].
    by rewrite entry_mark_sent_eq.
Qed.

(** C5: a band that the loaded document marks sent for the day gets
    no [send_push] call and no request; a band not marked sent with a
    selected window gets one call (and one request when credentials are
    configured); a run calls [send_push] at most once per band, and an
    acknowledged band is marked sent in the document of the run, so
    that a later run of the same day that loads it skips the band. *)
Theorem sent_band_is_not_dispatched :
  (forall cfg respond today (state : State) pg pa,
      let sg := sent_today state today "green" in
      let sa := sent_today state today "amber" in
      let g := dispatch cfg respond today state sg sa pg pa in
      (sg = true ->
         (forall ack, ("GREEN", ack) ∉ g_calls g)
         /\ (forall rec, ("GREEN", rec) ∉ g_posts g))
      /\ (sa = true ->
         (forall ack, ("AMBER", ack) ∉ g_calls g)
         /\ (forall rec, ("AMBER", rec) ∉ g_posts g))
      /\ (sg = false -> is_Some pg -> exists ack, ("GREEN", ack) ∈ g_calls g)
      /\ (sa = false -> is_Some pa -> exists ack, ("AMBER", ack) ∈ g_calls g)
      /\ (sg = false -> configured cfg = true ->
          forall rec, pg = Some rec -> ("GREEN", rec) ∈ g_posts g)
      /\ (sa = false -> configured cfg = true ->
          forall rec, pa = Some rec -> ("AMBER", rec) ∈ g_posts g)
      /\ NoDup (g_calls g).*1
      /\ NoDup (g_posts g).*1
      /\ (("GREEN", true) ∈ g_calls g ->
          sent_today (g_state g) today "green" = true)
      /\ (("AMBER", true) ∈ g_calls g ->
          sent_today (g_state g) today "amber" = true))
  /\ (forall i o scored,
        main i = Ok o -> main_scored i = Ok scored ->
        let loaded := load_state (in_disk i) in
        (sent_today loaded (in_today i) "green" = true ->
           forall ack, ("GREEN", ack) ∉ out_calls o)
        /\ (sent_today loaded (in_today i) "amber" = true ->
           forall ack, ("AMBER", ack) ∉ out_calls o)
        /\ (sent_today loaded (in_today i) "amber" = false ->
            ambers scored <> [] ->
            exists ack, ("AMBER", ack) ∈ out_calls o)
        /\ NoDup (out_calls o).*1).
Proof.
  split.
  - intros cfg respond today state pg pa sg sa g.
    pose proof (dispatch_gate cfg respond today state sg sa pg pa)
      as (H1 & H2 & H3 & H4 & H5 & H6 & H7 & H8).
    repeat (split; [assumption|]).
    split; [apply (acked_is_sent _ _ _ _ _ _ _ _ "GREEN" "green"); auto|].
    apply (acked_is_sent _ _ _ _ _ _ _ _ "AMBER" "amber"); auto.
  - intros i o scored H Hs loaded.
    apply main_Ok in H as (scored' & Hs' & H).
    rewrite Hs in Hs'. injection Hs' as <-.
    destruct H as [[-> ->]|[Hne ->]]; simpl.
    + repeat split; intros; try apply not_elem_of_nil; try done.
      constructor.
    + pose proof (dispatch_gate (in_cfg i) (in_respond i) (in_today i) loaded
        (sent_today loaded (in_today i) "green")
        (sent_today loaded (in_today i) "amber")
        (pick_best (greens scored)) (pick_best (ambers scored)))
        as (H1 & H2 & _ & H4 & _ & _ & H7 & _).
      fold (main_gate i scored) in H1, H2, H4, H7.
      split; [intros Hg; by apply H1|].
      split; [intros Ha; by apply H2|].
      split; [|exact H7].
      intros Ha Hamb. apply H4; [exact Ha|].
      destruct (pick_best_nonempty _ Hamb) as [r Hr]. by exists r.
Qed.

(** ** Candidate windows *)

Lemma twilight_label_spec fw_start fw_end dawn dusk :
  twilight_label fw_start fw_end dawn dusk
  = if overlaps fw_start fw_end dawn.1 dawn.2 then Some "dawn"
    else if overlaps fw_start fw_end dusk.1 dusk.2 then Some "dusk"
    else None.
Proof.
  unfold twilight_label.
  by destruct (overlaps _ _ dawn.1 _), (overlaps _ _ dusk.1 _).
Qed.

Lemma candidate_Some now day dawn dusk fw c :
  candidate now day dawn dusk fw = Some c <->
  c.1 = fw /\ date_of fw.1 = day /\ in_time now fw.1 fw.2
  /\ twilight_label fw.1 fw.2 dawn dusk = Some c.2.
Proof.
  destruct fw as [fs fe], c as [[cs ce] l]. unfold candidate, in_time. simpl.
  destruct (Z.eqb_spec (date_of fs) day) as [Hd|Hd]; simpl.
  - destruct (twilight_label fs fe dawn dusk) as [l'|].
    + destruct (Z.ltb_spec fe now), (Z.ltb_spec (now + td_hours 24) fs);
        simpl; split; try done; try (intros (_ & _ & ? & _); lia).
      * intros [= <- <- <-]. repeat split; try done; lia.
      * intros ([= <- <-] & _ & _ & [= <-]). done.
    + split; [done|]. by intros (_ & _ & _ & ?).
  - split; [done|]. by intros (_ & ? & _).
Qed.

Lemma elem_of_build_windows sun now flood_windows days c :
  c ∈ build_windows sun now flood_windows days <->
  exists day dawn dusk fw,
    day ∈ days /\ civil_twilight_for_day sun day = Some (dawn, dusk)
    /\ fw ∈ flood_windows /\ candidate now day dawn dusk fw = Some c.
Proof.
  unfold build_windows. rewrite list_elem_of_bind. split.
  - intros (day & Hc & Hday). unfold windows_for_day in Hc.
    destruct (civil_twilight_for_day sun day) as [[dawn dusk]|] eqn:Ht;
      [|by apply not_elem_of_nil in Hc].
    apply list_elem_of_omap in Hc as (fw & Hfw & Hcand).
    by exists day, dawn, dusk, fw.
  - intros (day & dawn & dusk & fw & Hday & Ht & Hfw & Hcand).
    exists day. split; [|exact Hday]. unfold windows_for_day. rewrite Ht.
    apply list_elem_of_omap. by exists fw.
Qed.

(** The label a flood window gets is decided by its start's day. *)
Lemma produced_label sun now flood_windows days day dawn dusk fs fe l :
  civil_twilight_for_day sun day = Some (dawn, dusk) ->
  date_of fs = day ->
  (fs, fe, l) ∈ build_windows sun now flood_windows days <->
  (fs, fe) ∈ flood_windows /\ day ∈ days /\ in_time now fs fe
  /\ twilight_label fs fe dawn dusk = Some l.
Proof.
  intros Ht Hd. rewrite elem_of_build_windows. split.
  - intros (day' & dawn' & dusk' & fw & Hday & Ht' & Hfw & Hc).
    apply candidate_Some in Hc as (Hfw' & Hd' & Htime & Hl). simpl in *.
    subst fw. simpl in *. assert (day' = day) as -> by congruence.
    rewrite Ht in Ht'. injection Ht' as <- <-. done.
  - intros (Hfw & Hday & Htime & Hl).
    exists day, dawn, dusk, (fs, fe). repeat split; try done.
    apply candidate_Some. done.
Qed.

(** C8: for a flood window starting on a day with twilight windows
    [dawn] and [dusk], a candidate produced from it is labelled "dawn"
    when it overlaps both (and when it overlaps dawn only), "dusk" when
    it overlaps dusk only, and none is produced when it overlaps
    neither; in the first three cases the candidate is produced exactly
    when the flood window is one of the run's, its day is in scope and
    it passes the time filter. *)
Theorem dawn_label_takes_precedence
  (sun : Daylight) (now : datetime) (flood_windows : list Interval)
  (days : list Z) (day : Z) (dawn dusk : Interval) (fs fe : datetime) :
  civil_twilight_for_day sun day = Some (dawn, dusk) ->
  date_of fs = day ->
  let ov_dawn := overlaps fs fe dawn.1 dawn.2 in
  let ov_dusk := overlaps fs fe dusk.1 dusk.2 in
  let produced l := (fs, fe, l) ∈ build_windows sun now flood_windows days in
  let kept := (fs, fe) ∈ flood_windows /\ day ∈ days /\ in_time now fs fe in
  (ov_dawn = true -> ov_dusk = true ->
     (produced "dawn" <-> kept) /\ forall l, produced l -> l = "dawn")
  /\ (ov_dawn = false -> ov_dusk = true ->
     (produced "dusk" <-> kept) /\ forall l, produced l -> l = "dusk")
  /\ (ov_dawn = false -> ov_dusk = false -> forall l, ~ produced l)
  /\ (ov_dawn = true -> ov_dusk = false ->
     (produced "dawn" <-> kept) /\ forall l, produced l -> l = "dawn").
Proof.
  intros Ht Hd ov_dawn ov_dusk produced kept.
  assert (Hp : forall l, produced l <->
             kept /\ twilight_label fs fe dawn dusk = Some l).
  { intros l. unfold produced, kept.
    rewrite (produced_label _ _ _ _ _ _ _ _ _ _ Ht Hd). tauto. }
  rewrite twilight_label_spec in Hp. fold ov_dawn ov_dusk in Hp.
  split; [|split; [|split]]; intros Ha Hb; rewrite Ha, ?Hb in Hp; simpl in Hp.
  - split; [split|].
    + intros H. by apply Hp in H as [? _].
    + intros H. by apply Hp.
    + intros l Hl. apply Hp in Hl as [_ [= <-]]. done.
  - split; [split|].
    + intros H. by apply Hp in H as [? _].
    + intros H. by apply Hp.
    + intros l Hl. apply Hp in Hl as [_ [= <-]]. done.
  - intros l Hl. by apply Hp in Hl as [_ ?].
  - split; [split|].
    + intros H. by apply Hp in H as [? _].
    + intros H. by apply Hp.
    + intros l Hl. apply Hp in Hl as [_ [= <-]]. done.
Qed.

(** C2, as the program has it: every candidate window is a whole flood
    window [(high - 2h, high)] that starts on a day in scope and
    overlaps the twilight window its label names (dawn, or dusk when it
    does not overlap dawn); the overlap is a non-empty part of the
    candidate's interval. *)
Theorem candidate_is_whole_flood_window
  (sun : Daylight) (now : datetime) (highs : list datetime) (days : list Z)
  (c : Window) :
  c ∈ build_windows sun now (pick_flood_windows highs) days ->
  exists ht day dawn dusk tw,
    ht ∈ highs /\ day ∈ days
    /\ civil_twilight_for_day sun day = Some (dawn, dusk)
    /\ c.1 = (ht - td_hours 2, ht)
    /\ date_of (ht - td_hours 2) = day
    /\ ((c.2 = "dawn" /\ tw = dawn)
        \/ (c.2 = "dusk" /\ tw = dusk
            /\ overlaps (ht - td_hours 2) ht dawn.1 dawn.2 = false))
    /\ overlaps (ht - td_hours 2) ht tw.1 tw.2 = true
    /\ (c.1.1 <= (intersection c.1 tw).1
        /\ (intersection c.1 tw).1 < (intersection c.1 tw).2
        /\ (intersection c.1 tw).2 <= c.1.2).
Proof.
  intros Hc.
  apply elem_of_build_windows in Hc as (day & dawn & dusk & fw & Hday & Ht & Hfw & Hc).
  apply candidate_Some in Hc as (Hfw' & Hd & _ & Hl).
  unfold pick_flood_windows in Hfw.
  apply list_elem_of_fmap in Hfw as (ht & -> & Hht). simpl in *.
  rewrite twilight_label_spec in Hl.
  assert (Hov : forall tw : Interval,
             overlaps (ht - td_hours 2) ht tw.1 tw.2 = true ->
             c.1.1 <= (intersection c.1 tw).1
             /\ (intersection c.1 tw).1 < (intersection c.1 tw).2
             /\ (intersection c.1 tw).2 <= c.1.2).
  { intros tw Hov. rewrite Hfw'. unfold intersection. simpl.
    apply overlaps_true_iff in Hov. lia. }
  destruct (overlaps _ _ dawn.1 _) eqn:Hdawn.
  - injection Hl as Hl. exists ht, day, dawn, dusk, dawn.
    repeat split; try done; try (by apply Hov). by left.
  - destruct (overlaps _ _ dusk.1 _) eqn:Hdusk; [|done].
    injection Hl as Hl. exists ht, day, dawn, dusk, dusk.
    repeat split; try done; try (by apply Hov). by right.
Qed.

Example ex_run_windows :
  main_windows (ex_run no_forecast ex_cfg (fun _ => true))
  = [(hm 4 0, hm 6 0, "dawn"); (hm 16 0, hm 18 0, "dusk")].
Proof. reflexivity. Qed.

Example ex_pressure_trend : pressure_trend (psl ex_met) = (-1.5)%Q.
Proof. reflexivity. Qed.

(** ** Scoring: when it returns, and when it raises *)

Lemma nearest_index_Ok hours mid :
  hours <> [] -> exists idx, nearest_index hours mid = Ok idx.
Proof.
  intros Hne. unfold nearest_index, range.
  destruct hours as [|h hs]; [done|]. simpl. eauto.
Qed.

Lemma score_window_returns met p_trend w :
  hours met <> [] -> exists r, score_window met p_trend w = Ok r.
Proof.
  intros Hne. destruct w as [[start end_] label]. unfold score_window.
  destruct (nearest_index_Ok (hours met) (start + td_half (end_ - start)) Hne)
    as [idx ->].
  simpl. eauto.
Qed.

Lemma item_or_nil idx dflt : item_or [] idx dflt = dflt.
Proof. unfold item_or. by destruct idx. Qed.

(** With timestamps but no values, the defaults are what is scored. *)
Lemma score_window_defaults hs p_trend w r :
  score_window {| hours := hs; sst := []; wind := []; wind_dir := [];
                  waveh := []; wavep := []; psl := [] |} p_trend w = Ok r ->
  rec_sst r = 12.0%Q /\ rec_wind_kt r = (6.0 * 1.94384)%Q
  /\ rec_wind_dir r = 225%Q /\ rec_wave_m r = 1.2%Q /\ rec_wavep r = 9.0%Q.
Proof.
  intros H. apply score_window_Ok in H
    as (idx & _ & _ & _ & _ & H1 & H2 & H3 & H4 & H5 & _).
  simpl in *. rewrite item_or_nil in *. done.
Qed.

(** C1 (the empty series): with no timestamp in the forecast, scoring
    any window raises [ValueError], whatever the other series hold: the
    defaults are never reached.  So does the scoring loop on a first
    window, and with it [main]. *)
Theorem scoring_raises_on_empty_series
  (sst wind wind_dir waveh wavep psl : list Q) (p_trend : Q)
  (w : Window) (ws : list Window) :
  let met := {| hours := []; sst := sst; wind := wind; wind_dir := wind_dir;
                waveh := waveh; wavep := wavep; psl := psl |} in
  score_window met p_trend w = Raise ValueError
  /\ score_windows met p_trend (w :: ws) = Raise ValueError
  /\ main (ex_run no_forecast ex_cfg (fun _ => true)) = Raise ValueError.
Proof.
  destruct w as [[start end_] label]. simpl. repeat split; reflexivity.
Qed.

(** C6: the bass score of a scored window is the sum of its
    temperature score, 2, its wind and swell score, the pressure-trend
    score and 1; for sst 13.5, wind 5 m/s, wave 1.0 m and trend -1.5
    the terms are 2, 2, 2, 2, 1 and the sum is 9, labelled AMBER and
    not GREEN. *)
Theorem bass_composite_is_sum_of_five :
  (forall met p_trend w r,
      score_window met p_trend w = Ok r ->
      rec_bass r
      = bass_sst_score (rec_sst r) + 2
        + wind_swell_ok (rec_wind_kt r) (rec_wave_m r)
        + pressure_trend_score p_trend + 1)
  /\ bass_sst_score 13.5 = 2
  /\ wind_swell_ok (5 * 1.94384) 1.0 = 2
  /\ pressure_trend_score (-1.5) = 2
  /\ bass_composite 13.5 (5 * 1.94384) 1.0 (-1.5) = 9
  /\ label_from_score 9 = "AMBER"
  /\ label_from_score 9 <> "GREEN".
Proof.
  split.
  - intros met p_trend w r H.
    apply score_window_Ok in H
      as (idx & _ & _ & _ & _ & _ & _ & _ & _ & _ & Hb & _).
    exact Hb.
  - repeat split; try reflexivity. discriminate.
Qed.

(** ** When a run returns *)

Lemma score_windows_returns met p_trend ws :
  hours met <> [] -> exists scored, score_windows met p_trend ws = Ok scored.
Proof.
  intros Hne. induction ws as [|w ws [rs IH]]; simpl; [by eexists|].
  destruct (score_window_returns met p_trend w Hne) as [r ->]. simpl.
  rewrite IH. simpl. by eexists.
Qed.



(** ** The claims at concrete inputs *)

(** C2 as stated fails: at 03:00 with a high tide at 06:00 and dawn
    from 05:00 to 06:00, the candidate is the flood window 04:00-06:00,
    which is not the overlap of any flood window with any twilight
    window of the days in scope (the overlap with dawn is 05:00-06:00). *)
Lemma candidate_is_not_the_overlap :
  (hm 4 0, hm 6 0, "dawn")
    ∈ build_windows ex_sun (hm 3 0) (pick_flood_windows [hm 6 0]) [0; 1]
  /\ intersection (hm 4 0, hm 6 0) (hm 5 0, hm 6 0) = (hm 5 0, hm 6 0)
  /\ ~ is_intersection ex_sun (pick_flood_windows [hm 6 0]) [0; 1]
         (hm 4 0, hm 6 0, "dawn").
Proof.
  split; [vm_compute; left|]. split; [reflexivity|].
  intros (fw & day & dawn & dusk & Hfw & Hday & Ht & Hc).
  apply list_elem_of_singleton in Hfw as ->.
  apply elem_of_cons in Hday as [->|Hday];
    [|apply list_elem_of_singleton in Hday as ->];
    vm_compute in Ht; injection Ht as <- <-;
    destruct Hc as [Hc|Hc]; vm_compute in Hc; discriminate.
Qed.

Lemma candidate_is_whole_flood_window_witness :
  (hm 4 0, hm 6 0, "dawn")
    ∈ build_windows ex_sun (hm 3 0) (pick_flood_windows [hm 6 0]) [0; 1]
  /\ exists ht day dawn dusk tw,
      ht ∈ [hm 6 0] /\ day ∈ [0; 1]
      /\ civil_twilight_for_day ex_sun day = Some (dawn, dusk)
      /\ (hm 4 0, hm 6 0) = (ht - td_hours 2, ht)
      /\ date_of (ht - td_hours 2) = day
      /\ (("dawn" = "dawn" /\ tw = dawn)
          \/ ("dawn" = "dusk" /\ tw = dusk
              /\ overlaps (ht - td_hours 2) ht dawn.1 dawn.2 = false))
      /\ overlaps (ht - td_hours 2) ht tw.1 tw.2 = true
      /\ (hm 4 0 <= (intersection (hm 4 0, hm 6 0) tw).1
          /\ (intersection (hm 4 0, hm 6 0) tw).1
             < (intersection (hm 4 0, hm 6 0) tw).2
          /\ (intersection (hm 4 0, hm 6 0) tw).2 <= hm 6 0).
Proof.
  assert (H : (hm 4 0, hm 6 0, "dawn")
                ∈ build_windows ex_sun (hm 3 0) (pick_flood_windows [hm 6 0]) [0; 1])
    by (vm_compute; left).
  split; [exact H|].
  exact (candidate_is_whole_flood_window ex_sun (hm 3 0) [hm 6 0] [0; 1]
           (hm 4 0, hm 6 0, "dawn") H).
Defined.

Example ex_run_returns :
  main (ex_run ex_met ex_cfg (fun _ => true)) = Ok ex_outcome.
Proof. vm_compute. reflexivity. Qed.

Example ex_run_calls : out_calls ex_outcome = [("AMBER", true)].
Proof. vm_compute. reflexivity. Qed.

Lemma composite_scores_never_green_witness :
  main (ex_run ex_met ex_cfg (fun _ => true)) = Ok ex_outcome
  /\ (forall ack, ("GREEN", ack) ∉ out_calls ex_outcome)
  /\ (forall rec, ("GREEN", rec) ∉ out_posts ex_outcome).
Proof.
  assert (H : main (ex_run ex_met ex_cfg (fun _ => true)) = Ok ex_outcome)
    by (vm_compute; reflexivity).
  split; [exact H|].
  destruct composite_scores_never_green as (_ & _ & _ & Hmain).
  destruct (Hmain _ _ H) as (Hcalls & Hposts & _).
  split; assumption.
Defined.

Example ex_score_window :
  score_window ex_met (-1.5) (hm 4 0, hm 6 0, "dawn") = Ok ex_scored.
Proof. reflexivity. Qed.

Lemma bass_composite_is_sum_of_five_witness :
  score_window ex_met (-1.5) (hm 4 0, hm 6 0, "dawn") = Ok ex_scored
  /\ rec_bass ex_scored
     = bass_sst_score (rec_sst ex_scored) + 2
       + wind_swell_ok (rec_wind_kt ex_scored) (rec_wave_m ex_scored)
       + pressure_trend_score (-1.5) + 1.
Proof.
  split; [reflexivity|].
  apply (proj1 bass_composite_is_sum_of_five
           ex_met (-1.5)%Q (hm 4 0, hm 6 0, "dawn") ex_scored).
  reflexivity.
Defined.

(** The provider refuses the request: nothing is marked. *)
Lemma band_marked_only_after_ack_witness :
  let g := dispatch ex_cfg (fun _ => false) "2024-01-01" ∅ false false
             None (Some ex_scored) in
  g_calls g = [("AMBER", false)]
  /\ (("AMBER", true) ∉ g_calls g)
  /\ entry (g_state g) "2024-01-01" "amber" = entry ∅ "2024-01-01" "amber".
Proof.
  assert (H : ("AMBER", true)
                ∉ g_calls (dispatch ex_cfg (fun _ => false) "2024-01-01" ∅
                             false false None (Some ex_scored))).
  { vm_compute. intros Hin. inversion Hin as [|? ? ? Hin']. inversion Hin'. }
  split; [reflexivity|]. split; [exact H|].
  destruct (proj1 band_marked_only_after_ack ex_cfg (fun _ => false)
              "2024-01-01" ∅ false false None (Some ex_scored))
    as (_ & Hamber & _).
  exact (Hamber H).
Defined.

Lemma sent_band_is_not_dispatched_witness :
  let g := dispatch ex_cfg (fun _ => true) "2024-01-01" ex_state
             (sent_today ex_state "2024-01-01" "green")
             (sent_today ex_state "2024-01-01" "amber")
             (Some ex_scored) (Some ex_scored) in
  sent_today ex_state "2024-01-01" "green" = true
  /\ sent_today ex_state "2024-01-01" "amber" = false
  /\ (forall ack, ("GREEN", ack) ∉ g_calls g)
  /\ (exists ack, ("AMBER", ack) ∈ g_calls g).
Proof.
  destruct (proj1 sent_band_is_not_dispatched ex_cfg (fun _ => true)
              "2024-01-01" ex_state (Some ex_scored) (Some ex_scored))
    as (Hg & _ & _ & Ha & _).
  split; [reflexivity|]. split; [reflexivity|]. split.
  - apply Hg. reflexivity.
  - apply Ha; [reflexivity | by eexists].
Defined.

Example ex_pick_best : pick_best ex_band = (ex_band !! 2%nat).
Proof. reflexivity. Qed.

Lemma pick_best_highest_then_earliest_witness :
  ex_band <> []
  /\ exists r, pick_best ex_band = Some r
       /\ r ∈ ex_band
       /\ (forall r', r' ∈ ex_band ->
             best_score r' <= best_score r
             /\ (best_score r' = best_score r -> rec_start r <= rec_start r'))
       /\ head (filter (fun x => best_score x = best_score r
                                 /\ rec_start x = rec_start r) ex_band)
          = Some r.
Proof.
  assert (H : ex_band <> []) by discriminate.
  split; [exact H|].
  exact (proj2 (pick_best_highest_then_earliest ex_band) H).
Defined.

Lemma dawn_label_takes_precedence_witness :
  civil_twilight_for_day ex_short_day 0
  = Some ((hm 4 30, hm 5 30), (hm 5 30, hm 6 30))
  /\ date_of (hm 4 0) = 0
  /\ overlaps (hm 4 0) (hm 6 0) (hm 4 30) (hm 5 30) = true
  /\ overlaps (hm 4 0) (hm 6 0) (hm 5 30) (hm 6 30) = true
  /\ forall l,
      (hm 4 0, hm 6 0, l)
        ∈ build_windows ex_short_day (hm 3 0) [(hm 4 0, hm 6 0)] [0; 1] ->
      l = "dawn".
Proof.
  split; [reflexivity|]. split; [reflexivity|].
  split; [reflexivity|]. split; [reflexivity|].
  destruct (dawn_label_takes_precedence ex_short_day (hm 3 0)
              [(hm 4 0, hm 6 0)] [0; 1] 0 (hm 4 30, hm 5 30) (hm 5 30, hm 6 30)
              (hm 4 0) (hm 6 0) eq_refl eq_refl) as (Hboth & _).
  exact (proj2 (Hboth eq_refl eq_refl)).
Defined.

(** * Further properties *)

(** ** Rational comparisons *)

Lemma Qleb_true x y : Qleb x y = true <-> (x <= y)%Q.
Proof. apply Qle_bool_iff. Qed.

Lemma Qleb_false x y : Qleb x y = false <-> (y < x)%Q.
Proof.
  unfold Qleb. rewrite <- not_true_iff_false, Qle_bool_iff.
  split; [apply Qnot_le_lt | apply Qlt_not_le].
Qed.

Lemma Qfloor_bounds (y : Q) :
  (inject_Z (Qfloor y) <= y)%Q /\ (y < inject_Z (Qfloor y) + 1)%Q.
Proof.
  split; [apply Qfloor_le|].
  pose proof (Qlt_floor y) as H. by rewrite inject_Z_plus in H.
Qed.

Lemma Qfloor_unique (k : Z) (y : Q) :
  (inject_Z k <= y)%Q -> (y < inject_Z k + 1)%Q -> Qfloor y = k.
Proof.
  intros Hlo Hhi. destruct (Qfloor_bounds y) as [H1 H2].
  assert (Qfloor y < k + 1).
  { rewrite Zlt_Qlt, inject_Z_plus. change (inject_Z 1) with 1%Q. lra. }
  assert (k < Qfloor y + 1).
  { rewrite Zlt_Qlt, inject_Z_plus. change (inject_Z 1) with 1%Q. lra. }
  lia.
Qed.

Lemma mod360_range x : (0 <= mod360 x)%Q /\ (mod360 x < 360)%Q.
Proof.
  unfold mod360.
  assert (Hx : (x == 360 * (x / 360))%Q) by field.
  destruct (Qfloor_bounds (x / 360)) as [H1 H2].
  set (y := (x / 360)%Q) in *. split; lra.
Qed.


Lemma mod360_periodic x (n : Z) : (mod360 (x + 360 * inject_Z n) == mod360 x)%Q.
Proof.
  unfold mod360.
  assert (Hx : (x == 360 * (x / 360))%Q) by field.
  assert (Hx' : ((x + 360 * inject_Z n) / 360 == x / 360 + inject_Z n)%Q) by field.
  destruct (Qfloor_bounds (x / 360)) as [H1 H2].
  rewrite (Qfloor_unique (Qfloor (x / 360) + n) ((x + 360 * inject_Z n) / 360)).
  - rewrite inject_Z_plus. lra.
  - rewrite inject_Z_plus, Hx'. lra.
  - rewrite inject_Z_plus, Hx'. lra.
Qed.

Lemma py_int_comp x y : (x == y)%Q -> py_int x = py_int y.
Proof.
  intros H. unfold py_int, Qleb.
  destruct (Qle_bool 0 x) eqn:Hx, (Qle_bool 0 y) eqn:Hy;
    [by apply Qfloor_comp | exfalso | exfalso | by apply Qceiling_comp].
  - apply Qle_bool_iff in Hx. apply (Qleb_false 0 y) in Hy. lra.
  - apply Qle_bool_iff in Hy. apply (Qleb_false 0 x) in Hx. lra.
Qed.


Lemma py_index_in_range {A} (l : list A) (i : Z) (d : A) :
  0 <= i < Z.of_nat (length l) -> py_index l i = Ok (nth (Z.to_nat i) l d).
Proof.
  intros H. unfold py_index.
  destruct (Z.ltb_spec i 0); [lia|].
  destruct (Z.leb_spec 0 i); [|lia].
  destruct (Z.ltb_spec i (Z.of_nat (length l))); [|lia]. simpl.
  rewrite nth_lookup.
  destruct (lookup_lt_is_Some_2 l (Z.to_nat i)) as [x ->]; [lia|]. done.
Qed.

Lemma cardinal_index_range deg : 0 <= cardinal_index deg < 16.
Proof. unfold cardinal_index. apply Z.mod_pos_bound. lia. Qed.


Lemma Qltb_true x y : Qltb x y = true <-> (x < y)%Q.
Proof. unfold Qltb. rewrite negb_true_iff. apply Qleb_false. Qed.

Lemma Qltb_false x y : Qltb x y = false <-> (y <= x)%Q.
Proof. unfold Qltb. rewrite negb_false_iff. apply Qleb_true. Qed.

(** Case analysis on every comparison of the goal. *)
Ltac qcases :=
  repeat match goal with
    | |- context [Qleb ?x ?y] =>
        let H := fresh "Hq" in
        destruct (Qleb x y) eqn:H;
        [apply Qleb_true in H | apply Qleb_false in H]
    | |- context [Qltb ?x ?y] =>
        let H := fresh "Hq" in
        destruct (Qltb x y) eqn:H;
        [apply Qltb_true in H | apply Qltb_false in H]
    end; simpl.

(** ** The scoring rules are monotone *)

(** X1: the bass temperature score never decreases when the water gets
    warmer. *)
Theorem bass_sst_score_monotone (c1 c2 : Q) :
  (c1 <= c2)%Q -> bass_sst_score c1 <= bass_sst_score c2.
Proof.
  intros H. unfold bass_sst_score. qcases; try lia; exfalso; lra.
Qed.

Lemma bass_sst_score_monotone_witness :
  (12.5 <= 13.5)%Q /\ bass_sst_score 12.5 <= bass_sst_score 13.5.
Proof.
  assert (H : (12.5 <= 13.5)%Q) by lra.
  split; [exact H | exact (bass_sst_score_monotone 12.5 13.5 H)].
Defined.

(** X2: the wind and swell score never increases when the wind or the
    swell gets stronger. *)
Theorem wind_swell_ok_antitone (wind1 swell1 wind2 swell2 : Q) :
  (wind1 <= wind2)%Q -> (swell1 <= swell2)%Q ->
  wind_swell_ok wind2 swell2 <= wind_swell_ok wind1 swell1.
Proof.
  intros H1 H2. unfold wind_swell_ok. qcases; try lia; exfalso; lra.
Qed.

Lemma wind_swell_ok_antitone_witness :
  (10 <= 20)%Q /\ (1.0 <= 2.0)%Q
  /\ wind_swell_ok 20 2.0 <= wind_swell_ok 10 1.0.
Proof.
  assert (H1 : (10 <= 20)%Q) by lra.
  assert (H2 : (1.0 <= 2.0)%Q) by lra.
  split; [exact H1|]. split; [exact H2|].
  exact (wind_swell_ok_antitone 10 1.0 20 2.0 H1 H2).
Defined.

(** X3: the pressure-trend score never increases when the trend gets
    larger: falling pressure scores at least as much as rising. *)
Theorem pressure_trend_score_antitone (t1 t2 : Q) :
  (t1 <= t2)%Q -> pressure_trend_score t2 <= pressure_trend_score t1.
Proof.
  intros H. unfold pressure_trend_score. qcases; try lia; exfalso;
    repeat match goal with
      | H : (Qabs _ <= _)%Q |- _ => apply Qabs_Qle_condition in H
      | H : (_ < Qabs ?x)%Q |- _ => revert H; apply Qabs_case; intros
      end; lra.
Qed.

Lemma pressure_trend_score_antitone_witness :
  (-2.0 <= 0.5)%Q /\ pressure_trend_score 0.5 <= pressure_trend_score (-2.0).
Proof.
  assert (H : (-2.0 <= 0.5)%Q) by lra.
  split; [exact H | exact (pressure_trend_score_antitone (-2.0) 0.5 H)].
Defined.

(** ** The compass label *)

(** X4: for every wind direction the index into [cardinal_dirs] is in
    range: the lookup never raises and returns one of the sixteen
    labels. *)
Theorem wind_cardinal_never_fails (deg : Q) :
  exists s, wind_cardinal deg = Ok s /\ s ∈ cardinal_dirs.
Proof.
  pose proof (cardinal_index_range deg) as Hr.
  unfold wind_cardinal. rewrite (py_index_in_range _ _ EmptyString) by (simpl; lia).
  destruct (lookup_lt_is_Some_2 cardinal_dirs (Z.to_nat (cardinal_index deg)))
    as [s Hs]; [simpl; lia|].
  exists s. rewrite nth_lookup, Hs. split; [reflexivity|].
  apply list_elem_of_lookup. by eexists.
Qed.

(** X5: the label does not change when whole turns are added to or
    taken from the direction. *)
Theorem wind_cardinal_periodic (deg : Q) (n : Z) :
  wind_cardinal (deg + 360 * inject_Z n) = wind_cardinal deg.
Proof.
  unfold wind_cardinal, cardinal_index. f_equal. f_equal. apply py_int_comp.
  by rewrite mod360_periodic.
Qed.



(** ** Overlap and twilight *)

(** X7: [overlaps] does not depend on the order of the two intervals,
    and holds only when both intervals are non-empty. *)
Theorem overlaps_symmetric_nonempty (a_start a_end b_start b_end : datetime) :
  overlaps a_start a_end b_start b_end = overlaps b_start b_end a_start a_end
  /\ overlaps a_start a_end b_start b_end
     = overlaps a_start a_end b_start b_end
       && (a_start <? a_end) && (b_start <? b_end).
Proof.
  unfold overlaps. split; lia.
Qed.

(** X8: on a day whose sunrise [sr] and sunset [ss] are known, the
    flood window of a high tide [ht] is labelled "dawn" exactly when
    [ht] is strictly between 30 minutes before and 2 hours 30 after
    sunrise; "dusk" when it is not, and [ht] is in that range around
    sunset; and it gets no label otherwise. *)
Theorem high_tide_near_sunrise_is_dawn
  (sun : Daylight) (day : Z) (sr ss ht : datetime) :
  sun day = Some (sr, ss) ->
  exists dawn dusk,
    civil_twilight_for_day sun day = Some (dawn, dusk)
    /\ (twilight_label (ht - td_hours 2) ht dawn dusk = Some "dawn"
        <-> sr - td_minutes 30 < ht < sr + td_minutes 150)
    /\ (twilight_label (ht - td_hours 2) ht dawn dusk = Some "dusk"
        <-> ~ (sr - td_minutes 30 < ht < sr + td_minutes 150)
            /\ ss - td_minutes 30 < ht < ss + td_minutes 150)
    /\ (twilight_label (ht - td_hours 2) ht dawn dusk = None
        <-> ~ (sr - td_minutes 30 < ht < sr + td_minutes 150)
            /\ ~ (ss - td_minutes 30 < ht < ss + td_minutes 150)).
Proof.
  intros Hs. unfold civil_twilight_for_day. rewrite Hs.
  eexists _, _. split; [reflexivity|].
  rewrite twilight_label_spec. simpl.
  unfold overlaps, td_hours, td_minutes.
  destruct (Z.ltb_spec (Z.max (ht - 2 * 3600000000) (sr - 30 * 60000000))
              (Z.min ht (sr + 30 * 60000000)));
  destruct (Z.ltb_spec (Z.max (ht - 2 * 3600000000) (ss - 30 * 60000000))
              (Z.min ht (ss + 30 * 60000000)));
    repeat split; intros; try done; try lia.
Qed.

Lemma high_tide_near_sunrise_is_dawn_witness :
  ex_sun 0 = Some (hm 5 30, hm 17 30)
  /\ exists dawn dusk,
      civil_twilight_for_day ex_sun 0 = Some (dawn, dusk)
      /\ (twilight_label (hm 6 0 - td_hours 2) (hm 6 0) dawn dusk = Some "dawn"
          <-> hm 5 30 - td_minutes 30 < hm 6 0 < hm 5 30 + td_minutes 150)
      /\ (twilight_label (hm 6 0 - td_hours 2) (hm 6 0) dawn dusk = Some "dusk"
          <-> ~ (hm 5 30 - td_minutes 30 < hm 6 0 < hm 5 30 + td_minutes 150)
              /\ hm 17 30 - td_minutes 30 < hm 6 0 < hm 17 30 + td_minutes 150)
      /\ (twilight_label (hm 6 0 - td_hours 2) (hm 6 0) dawn dusk = None
          <-> ~ (hm 5 30 - td_minutes 30 < hm 6 0 < hm 5 30 + td_minutes 150)
              /\ ~ (hm 17 30 - td_minutes 30 < hm 6 0
                    < hm 17 30 + td_minutes 150)).
Proof.
  split; [reflexivity|].
  exact (high_tide_near_sunrise_is_dawn ex_sun 0 (hm 5 30) (hm 17 30) (hm 6 0)
           eq_refl).
Defined.

(** ** The candidate windows of a run *)

Lemma date_of_next_day now : date_of (now + td_days 1) = date_of now + 1.
Proof.
  unfold date_of, td_days. rewrite Z.div_add by lia. reflexivity.
Qed.

(** X9: every candidate window of a run lasts two hours and ends at one
    of the run's high tides; it has not ended before now and does not
    start more than 24 hours from now; it starts today or tomorrow and
    is labelled "dawn" or "dusk". *)
Theorem main_windows_invariant (i : Inputs) (c : Window) :
  c ∈ main_windows i ->
  c.1.2 - c.1.1 = td_hours 2
  /\ c.1.2 ∈ highs_or_fallback (in_now i) (in_highs i)
  /\ in_now i <= c.1.2
  /\ c.1.1 <= in_now i + td_hours 24
  /\ (date_of c.1.1 = date_of (in_now i)
      \/ date_of c.1.1 = date_of (in_now i) + 1)
  /\ (c.2 = "dawn" \/ c.2 = "dusk").
Proof.
  unfold main_windows. intros Hc.
  apply elem_of_build_windows in Hc as (day & dawn & dusk & fw & Hday & Ht & Hfw & Hc).
  apply candidate_Some in Hc as (Hfw' & Hd & [Hn1 Hn2] & Hl).
  unfold pick_flood_windows in Hfw.
  apply list_elem_of_fmap in Hfw as (ht & -> & Hht). simpl in *.
  rewrite Hfw'. simpl.
  split; [lia|]. split; [exact Hht|]. split; [exact Hn1|]. split; [exact Hn2|].
  split.
  - rewrite Hd. unfold days_in_scope in Hday. rewrite date_of_next_day in Hday.
    destruct (in_swap i);
      (apply elem_of_cons in Hday as [->|Hday];
       [|apply list_elem_of_singleton in Hday as ->]); auto.
  - rewrite twilight_label_spec in Hl.
    destruct (overlaps _ _ dawn.1 _); [left; congruence|].
    destruct (overlaps _ _ dusk.1 _); [right; congruence | done].
Qed.

Lemma main_windows_invariant_witness :
  (hm 4 0, hm 6 0, "dawn") ∈ main_windows (ex_run ex_met ex_cfg (fun _ => true))
  /\ hm 6 0 - hm 4 0 = td_hours 2
  /\ hm 3 0 <= hm 6 0
  /\ hm 4 0 <= hm 3 0 + td_hours 24.
Proof.
  assert (H : (hm 4 0, hm 6 0, "dawn")
                ∈ main_windows (ex_run ex_met ex_cfg (fun _ => true)))
    by (vm_compute; left).
  split; [exact H|].
  destruct (main_windows_invariant _ _ H) as (H1 & _ & H3 & H4 & _).
  split; [exact H1|]. split; [exact H3 | exact H4].
Defined.

Lemma filter_disjoint_length {A} (P Q : A -> Prop)
  `{!forall x, Decision (P x)} `{!forall x, Decision (Q x)} (l : list A) :
  (forall x, P x -> Q x -> False) ->
  (length (filter P l) + length (filter Q l)
   = length (filter (fun x => P x \/ Q x) l))%nat.
Proof.
  intros Hd. induction l as [|x l IH]; [reflexivity|].
  rewrite !filter_cons.
  destruct (decide (P x)), (decide (Q x)), (decide (P x \/ Q x));
    simpl; try lia; try tauto. exfalso; eauto.
Qed.

Lemma windows_for_day_length sun now fws day :
  (length (windows_for_day sun now fws day)
   <= length (filter (fun fw : Interval => date_of fw.1 = day) fws))%nat.
Proof.
  unfold windows_for_day.
  destruct (civil_twilight_for_day sun day) as [[dawn dusk]|]; [|simpl; lia].
  induction fws as [|fw fws IH]; [reflexivity|].
  rewrite filter_cons. simpl.
  destruct (candidate now day dawn dusk fw) as [c|] eqn:Hc.
  - apply candidate_Some in Hc as (_ & Hd & _).
    rewrite decide_True by done. simpl. apply le_n_S. exact IH.
  - case_decide; simpl; [apply le_S|]; exact IH.
Qed.

Lemma build_windows_length sun now fws days :
  NoDup days ->
  (length (build_windows sun now fws days)
   <= length (filter (fun fw : Interval => date_of fw.1 ∈ days) fws))%nat.
Proof.
  unfold build_windows. induction 1 as [|d days Hd Hnd IH]; simpl; [lia|].
  rewrite length_app.
  pose proof (windows_for_day_length sun now fws d) as Hw.
  assert (Heq : filter (fun fw : Interval => date_of fw.1 ∈ d :: days) fws
                = filter (fun fw : Interval =>
                            date_of fw.1 = d \/ date_of fw.1 ∈ days) fws).
  { apply list_filter_iff. intros fw. rewrite elem_of_cons. tauto. }
  rewrite Heq, <- filter_disjoint_length; [by apply Nat.add_le_mono|].
  intros fw -> ?. done.
Qed.

(** X10: a run has at most one candidate window per high tide: a flood
    window is matched against the twilight of one day only, and gets
    one label even when it overlaps both dawn and dusk. *)
Theorem one_candidate_per_high_tide (i : Inputs) :
  (length (main_windows i)
   <= length (highs_or_fallback (in_now i) (in_highs i)))%nat.
Proof.
  unfold main_windows.
  etransitivity; [apply build_windows_length|].
  - unfold days_in_scope. rewrite date_of_next_day.
    destruct (in_swap i); apply NoDup_cons;
      (split; [rewrite list_elem_of_singleton; lia | apply NoDup_singleton]).
  - etransitivity; [apply length_filter|].
    unfold pick_flood_windows. by rewrite length_map.
Qed.

(** X11: without tide data the candidate windows can only be
    04:00-06:00 or 16:00-18:00 UTC, today or tomorrow. *)
Theorem fallback_windows (i : Inputs) (c : Window) :
  in_highs i = [] -> c ∈ main_windows i ->
  let d := date_of (in_now i) in
  c.1 ∈ [(at_hour d 4, at_hour d 6); (at_hour d 16, at_hour d 18);
         (at_hour (d + 1) 4, at_hour (d + 1) 6);
         (at_hour (d + 1) 16, at_hour (d + 1) 18)].
Proof.
  intros Hh Hc d. unfold main_windows in Hc. rewrite Hh in Hc.
  apply elem_of_build_windows in Hc as (day & dawn & dusk & fw & _ & _ & Hfw & Hc).
  apply candidate_Some in Hc as (-> & _).
  revert Hfw. unfold highs_or_fallback, approx_hts, pick_flood_windows.
  rewrite date_of_next_day. fold d. simpl.
  replace (at_hour d 6 - td_hours 2) with (at_hour d 4)
    by (unfold at_hour, td_hours; lia).
  replace (at_hour d 18 - td_hours 2) with (at_hour d 16)
    by (unfold at_hour, td_hours; lia).
  replace (at_hour (d + 1) 6 - td_hours 2) with (at_hour (d + 1) 4)
    by (unfold at_hour, td_hours; lia).
  replace (at_hour (d + 1) 18 - td_hours 2) with (at_hour (d + 1) 16)
    by (unfold at_hour, td_hours; lia).
  done.
Qed.

Lemma fallback_windows_witness :
  in_highs (ex_run ex_met ex_cfg (fun _ => true)) = []
  /\ (hm 16 0, hm 18 0, "dusk")
       ∈ main_windows (ex_run ex_met ex_cfg (fun _ => true))
  /\ (hm 16 0, hm 18 0)
       ∈ [(at_hour 0 4, at_hour 0 6); (at_hour 0 16, at_hour 0 18);
          (at_hour (0 + 1) 4, at_hour (0 + 1) 6);
          (at_hour (0 + 1) 16, at_hour (0 + 1) 18)].
Proof.
  assert (H : (hm 16 0, hm 18 0, "dusk")
                ∈ main_windows (ex_run ex_met ex_cfg (fun _ => true)))
    by (vm_compute; right; left).
  split; [reflexivity|]. split; [exact H|].
  exact (fallback_windows (ex_run ex_met ex_cfg (fun _ => true))
           (hm 16 0, hm 18 0, "dusk") eq_refl H).
Defined.

(** X12: when the daylight request fails for one day, that day
    contributes no candidate and the other days contribute exactly
    what they would otherwise. *)
Theorem failed_day_is_skipped (sun : Daylight) (now : datetime)
  (flood_windows : list Interval) (days : list Z) (d : Z) :
  build_windows (fail_day sun d) now flood_windows days
  = build_windows sun now flood_windows (filter (fun d' => d' <> d) days).
Proof.
  unfold build_windows.
  induction days as [|d' days IH]; [reflexivity|].
  rewrite filter_cons, bind_cons. case_decide as Hd.
  - rewrite bind_cons, <- IH. f_equal.
    unfold windows_for_day, civil_twilight_for_day, fail_day.
    by rewrite decide_False.
  - subst d'. rewrite <- IH.
    unfold windows_for_day at 1, civil_twilight_for_day, fail_day.
    by rewrite decide_True.
Qed.

(** X13: when the daylight request fails for every day, the run has no
    candidate window and returns 0 without scoring, dispatching or
    writing, whatever the forecast holds. *)
Theorem no_daylight_no_dispatch (i : Inputs) :
  (forall d, in_sun i d = None) ->
  main_windows i = []
  /\ main i = Ok {| exit_code := 0; written := None;
                    out_calls := []; out_posts := [] |}.
Proof.
  intros Hs.
  assert (Hw : main_windows i = []).
  { unfold main_windows, build_windows, days_in_scope, windows_for_day,
      civil_twilight_for_day.
    destruct (in_swap i); simpl; by rewrite !Hs. }
  split; [exact Hw|].
  unfold main. fold (main_windows i). rewrite Hw. reflexivity.
Qed.

Lemma no_daylight_no_dispatch_witness :
  main {| in_disk := NoFile; in_today := "1970-01-01"; in_now := hm 3 0;
          in_swap := false; in_met := no_forecast; in_highs := [];
          in_sun := fun _ => None; in_cfg := ex_cfg;
          in_respond := fun _ => true |}
  = Ok {| exit_code := 0; written := None;
          out_calls := []; out_posts := [] |}.
Proof.
  apply (no_daylight_no_dispatch
           {| in_disk := NoFile; in_today := "1970-01-01"; in_now := hm 3 0;
              in_swap := false; in_met := no_forecast; in_highs := [];
              in_sun := fun _ => None; in_cfg := ex_cfg;
              in_respond := fun _ => true |}).
  intros d. reflexivity.
Defined.

(** ** Sampling and scoring *)

Lemma min_scan_first key best rest :
  StronglySorted lt (best :: rest) ->
  min_scan key best rest ∈ best :: rest
  /\ forall x, x ∈ best :: rest ->
       key (min_scan key best rest) <= key x
       /\ (key x = key (min_scan key best rest) ->
           (min_scan key best rest <= x)%nat).
Proof.
  revert best. induction rest as [|i rest IH]; intros best Hs; simpl.
  - split; [left|]. intros x ->%list_elem_of_singleton. split; lia.
  - apply StronglySorted_inv in Hs as [Hs' Hall].
    assert (Hbi : (best < i)%nat) by (by apply Forall_inv in Hall).
    destruct (Z.ltb_spec (key i) (key best)) as [Hlt|Hge].
    + destruct (IH i Hs') as [Hin Hmin]. split; [by right|].
      intros x [->|Hx]%elem_of_cons; [|by apply Hmin].
      destruct (Hmin i) as [Hle _]; [left|]. split; lia.
    + assert (Hs'' : StronglySorted lt (best :: rest)).
      { apply StronglySorted_inv in Hs' as [Hs' _].
        constructor; [exact Hs'|]. by apply Forall_inv_tail in Hall. }
      destruct (IH best Hs'') as [Hin Hmin].
      destruct (Hmin best) as [Hb1 Hb2]; [left|].
      split.
      * apply elem_of_cons in Hin as [Hin|Hin]; [rewrite Hin; left|].
        right. by right.
      * intros x [->|[->|Hx]%elem_of_cons]%elem_of_cons.
        -- by apply Hmin; left.
        -- split; [lia|]. intros Heq.
           apply elem_of_cons in Hin as [Hin|Hin]; [lia|].
           assert (Hkey : key best = key (min_scan key best rest)) by lia.
           specialize (Hb2 Hkey).
           apply StronglySorted_inv in Hs'' as [_ Hall'].
           pose proof (proj1 (Forall_forall _ _) Hall' _ Hin). lia.
        -- apply Hmin. by right.
Qed.

Lemma seq_sorted a n : StronglySorted lt (seq a n).
Proof.
  revert a. induction n as [|n IH]; intros a; simpl; constructor; [apply IH|].
  apply Forall_forall. intros x Hx%list_elem_of_In%in_seq. lia.
Qed.

(** X14: the index chosen for a window's midpoint is that of a
    timestamp nearest to it, and the lowest such index when several
    timestamps are equally near. *)
Theorem nearest_index_is_first_nearest
  (hours : list datetime) (mid : datetime) (idx : nat) :
  nearest_index hours mid = Ok idx ->
  exists h, hours !! idx = Some h
    /\ forall j hj, hours !! j = Some hj ->
         Z.abs (h - mid) <= Z.abs (hj - mid)
         /\ (Z.abs (hj - mid) = Z.abs (h - mid) -> (idx <= j)%nat).
Proof.
  unfold nearest_index, py_min, range.
  destruct (seq 0 (length hours)) as [|i rest] eqn:Hseq; [done|].
  intros [= <-].
  pose proof (seq_sorted 0 (length hours)) as Hs. rewrite Hseq in Hs.
  set (key := fun i => Z.abs (nth i hours 0 - mid)).
  destruct (min_scan_first key i rest Hs) as [Hin Hmin].
  rewrite <- Hseq in Hin, Hmin.
  apply list_elem_of_In, in_seq in Hin.
  destruct (lookup_lt_is_Some_2 hours (min_scan key i rest)) as [h Hh];
    [exact (proj2 Hin)|].
  exists h. split; [exact Hh|].
  intros j hj Hj.
  destruct (Hmin j) as [H1 H2].
  { apply list_elem_of_In, in_seq. apply lookup_lt_Some in Hj.
    split; [apply Nat.le_0_l | exact Hj]. }
  unfold key in *. cbv beta in H1, H2.
  unfold datetime in *.
  rewrite !nth_lookup in H1. rewrite Hh, Hj in H1.
  rewrite !nth_lookup in H2. rewrite Hh, Hj in H2. simpl in *.
  split; [exact H1|]. intros Heq. apply H2. exact Heq.
Qed.

(** Timestamps at 04:00 and 06:00 are equally near 05:00: the first
    one is chosen. *)
Lemma nearest_index_is_first_nearest_witness :
  nearest_index [hm 2 0; hm 4 0; hm 6 0] (hm 5 0) = Ok 1%nat
  /\ exists h, [hm 2 0; hm 4 0; hm 6 0] !! 1%nat = Some h
       /\ forall j hj, [hm 2 0; hm 4 0; hm 6 0] !! j = Some hj ->
            Z.abs (h - hm 5 0) <= Z.abs (hj - hm 5 0)
            /\ (Z.abs (hj - hm 5 0) = Z.abs (h - hm 5 0) -> (1 <= j)%nat).
Proof.
  split; [reflexivity|].
  exact (nearest_index_is_first_nearest [hm 2 0; hm 4 0; hm 6 0] (hm 5 0) 1
           eq_refl).
Defined.

(** X15: when the scoring loop returns, it has one record per window,
    in the order of the windows, each with its window's start, end and
    label. *)
Theorem score_windows_keeps_windows
  (met : Hourly) (p_trend : Q) (ws : list Window) (scored : list Scored) :
  score_windows met p_trend ws = Ok scored ->
  (fun r => (rec_start r, rec_end r, rec_label r)) <$> scored = ws.
Proof.
  revert scored. induction ws as [|w ws IH]; simpl; intros scored H.
  - by injection H as <-.
  - destruct (score_window met p_trend w) as [r|e] eqn:Hw; simpl in H; [|done].
    destruct (score_windows met p_trend ws) as [rs|e] eqn:Hws; simpl in H; [|done].
    injection H as <-. rewrite fmap_cons, (IH rs eq_refl). f_equal.
    apply score_window_Ok in Hw as (_ & _ & -> & -> & -> & _).
    by destruct w as [[? ?] ?].
Qed.

Lemma score_windows_keeps_windows_witness :
  score_windows ex_met (-1.5) [(hm 4 0, hm 6 0, "dawn")] = Ok [ex_scored]
  /\ (fun r => (rec_start r, rec_end r, rec_label r)) <$> [ex_scored]
     = [(hm 4 0, hm 6 0, "dawn")].
Proof.
  split; [reflexivity|].
  exact (score_windows_keeps_windows ex_met (-1.5)%Q
           [(hm 4 0, hm 6 0, "dawn")] [ex_scored] eq_refl).
Defined.

Lemma main_windows_span (i : Inputs) (c : Window) :
  c ∈ main_windows i -> c.1.1 = c.1.2 - td_hours 2.
Proof.
  unfold main_windows. intros Hc.
  apply elem_of_build_windows in Hc as (day & dawn & dusk & fw & _ & _ & Hfw & Hc).
  apply candidate_Some in Hc as (-> & _).
  unfold pick_flood_windows in Hfw.
  by apply list_elem_of_fmap in Hfw as (ht & -> & _).
Qed.

(** X16: a candidate window of a run is scored with the values of the
    timestamp nearest to one hour before its high tide (the defaults
    where a series has no value at that index). *)
Theorem window_sampled_one_hour_before_high (i : Inputs) (p_trend : Q)
  (c : Window) (r : Scored) :
  c ∈ main_windows i ->
  score_window (in_met i) p_trend c = Ok r ->
  exists idx,
    nearest_index (hours (in_met i)) (c.1.2 - td_hours 1) = Ok idx
    /\ rec_sst r = item_or (sst (in_met i)) idx 12.0
    /\ rec_wind_kt r = (item_or (wind (in_met i)) idx 6.0 * 1.94384)%Q
    /\ rec_wave_m r = item_or (waveh (in_met i)) idx 1.2.
Proof.
  intros Hc Hr. apply main_windows_span in Hc.
  apply score_window_Ok in Hr as (idx & Hidx & _ & _ & _ & H1 & H2 & _ & H3 & _).
  exists idx. repeat split; try assumption.
  rewrite <- Hidx. f_equal. rewrite Hc.
  replace (c.1.2 - (c.1.2 - td_hours 2)) with (td_hours 2) by lia.
  change (td_half (td_hours 2)) with (td_hours 1). unfold td_hours. lia.
Qed.

Lemma window_sampled_one_hour_before_high_witness :
  (hm 4 0, hm 6 0, "dawn") ∈ main_windows (ex_run ex_met ex_cfg (fun _ => true))
  /\ score_window ex_met (-1.5) (hm 4 0, hm 6 0, "dawn") = Ok ex_scored
  /\ exists idx,
      nearest_index (hours ex_met) (hm 6 0 - td_hours 1) = Ok idx
      /\ rec_sst ex_scored = item_or (sst ex_met) idx 12.0
      /\ rec_wind_kt ex_scored = (item_or (wind ex_met) idx 6.0 * 1.94384)%Q
      /\ rec_wave_m ex_scored = item_or (waveh ex_met) idx 1.2.
Proof.
  assert (H : (hm 4 0, hm 6 0, "dawn")
                ∈ main_windows (ex_run ex_met ex_cfg (fun _ => true)))
    by (vm_compute; left).
  split; [exact H|]. split; [reflexivity|].
  exact (window_sampled_one_hour_before_high
           (ex_run ex_met ex_cfg (fun _ => true)) (-1.5)%Q
           (hm 4 0, hm 6 0, "dawn") ex_scored H eq_refl).
Defined.

Lemma score_windows_length met p_trend ws scored :
  score_windows met p_trend ws = Ok scored -> length scored = length ws.
Proof.
  revert scored. induction ws as [|w ws IH]; simpl; intros scored H.
  - by injection H as <-.
  - destruct (score_window met p_trend w) as [r|e]; simpl in H; [|done].
    destruct (score_windows met p_trend ws) as [rs|e]; simpl in H; [|done].
    injection H as <-. simpl. by rewrite (IH rs).
Qed.

Lemma score_missing_values hs w r :
  score_window (values_missing hs) (pressure_trend []) w = Ok r ->
  rec_bass r = 7 /\ rec_cod r = 7.
Proof.
  intros H. pose proof (score_window_defaults _ _ _ _ H) as (H1 & H2 & _ & H4 & _).
  apply score_window_Ok in H as (_ & _ & _ & _ & _ & _ & _ & _ & _ & _ & Hb & Hc).
  rewrite Hb, Hc, H1, H2, H4. split; reflexivity.
Qed.

(** X17: when the forecast has timestamps but no values, every window
    is scored from the defaults, 7 for bass and 7 for cod, which is an
    AMBER score: with a candidate window and AMBER not yet sent today,
    the run calls [send_push] for AMBER. *)
Theorem missing_values_alert_amber (i : Inputs) (hs : list datetime) :
  in_met i = values_missing hs -> hs <> [] -> main_windows i <> [] ->
  sent_today (load_state (in_disk i)) (in_today i) "amber" = false ->
  exists o scored ack,
    main i = Ok o /\ main_scored i = Ok scored
    /\ Forall (fun r => rec_bass r = 7 /\ rec_cod r = 7) scored
    /\ ("AMBER", ack) ∈ out_calls o.
Proof.
  intros Hmet Hhs Hw Hsent.
  destruct (score_windows_returns (in_met i) (pressure_trend (psl (in_met i)))
              (main_windows i)) as [scored Hs]; [by rewrite Hmet|].
  fold (main_scored i) in Hs.
  assert (Hall : Forall (fun r => rec_bass r = 7 /\ rec_cod r = 7) scored).
  { pose proof (score_windows_Forall _ _ _ _ Hs) as Hf.
    eapply Forall_impl; [exact Hf|]. intros r (w & _ & Hr).
    rewrite Hmet in Hr. by apply score_missing_values in Hr. }
  assert (Hne : scored <> []).
  { intros ->. apply score_windows_length in Hs. simpl in Hs.
    destruct (main_windows i); done. }
  assert (Hamb : ambers scored <> []).
  { destruct scored as [|r rs]; [done|]. apply Forall_inv in Hall as [Hb Hc].
    unfold ambers. simpl. unfold best_score at 1 2. rewrite Hb, Hc. done. }
  destruct (pick_best_nonempty _ Hamb) as [pick Hpick].
  pose proof (dispatch_gate (in_cfg i) (in_respond i) (in_today i)
    (load_state (in_disk i))
    (sent_today (load_state (in_disk i)) (in_today i) "green")
    (sent_today (load_state (in_disk i)) (in_today i) "amber")
    (pick_best (greens scored)) (pick_best (ambers scored)))
    as (_ & _ & _ & H4 & _).
  destruct H4 as [ack Hack]; [exact Hsent | by eexists|].
  fold (main_gate i scored) in Hack.
  destruct scored as [|r0 rs]; [done|].
  eexists _, (r0 :: rs), ack. split; [|split; [exact Hs|split; [exact Hall|]]].
  - unfold main. fold (main_windows i). fold (main_scored i). rewrite Hs.
    reflexivity.
  - exact Hack.
Qed.

Lemma missing_values_alert_amber_witness :
  exists o scored ack,
    main (ex_run (values_missing [hm 5 0]) ex_cfg (fun _ => true)) = Ok o
    /\ main_scored (ex_run (values_missing [hm 5 0]) ex_cfg (fun _ => true))
       = Ok scored
    /\ Forall (fun r => rec_bass r = 7 /\ rec_cod r = 7) scored
    /\ ("AMBER", ack) ∈ out_calls o.
Proof.
  apply (missing_values_alert_amber
           (ex_run (values_missing [hm 5 0]) ex_cfg (fun _ => true)) [hm 5 0]).
  - reflexivity.
  - discriminate.
  - vm_compute. discriminate.
  - reflexivity.
Defined.

(** X18: a steady pressure series (an empty one too) gives the trend 0
    and the pressure score 1. *)
Theorem steady_pressure_scores_one (psl : list Q) (c : Q) :
  Forall (fun p => (p == c)%Q) psl ->
  (pressure_trend psl == 0)%Q /\ pressure_trend_score (pressure_trend psl) = 1.
Proof.
  intros Hall.
  assert (H0 : (pressure_trend psl == 0)%Q).
  { unfold pressure_trend.
    destruct (last psl) as [p_now|] eqn:Hl; [|reflexivity].
    destruct (psl !! _) as [p_prev|] eqn:Hm; [|reflexivity].
    destruct (truthy p_now && truthy p_prev); [|reflexivity].
    rewrite Forall_forall in Hall.
    assert (p_now ∈ psl) as Hn%Hall.
    { rewrite last_lookup in Hl. by eapply list_elem_of_lookup_2. }
    assert (p_prev ∈ psl) as Hp%Hall by (by eapply list_elem_of_lookup_2).
    rewrite Hn, Hp. ring. }
  split; [exact H0|].
  unfold pressure_trend_score. qcases; try reflexivity; exfalso;
    repeat match goal with
      | H : (_ < Qabs _)%Q |- _ => revert H; apply Qabs_case; intros
      end; lra.
Qed.

Lemma steady_pressure_scores_one_witness :
  Forall (fun p => (p == 1010)%Q) [1010%Q; 1010%Q; 1010%Q]
  /\ (pressure_trend [1010%Q; 1010%Q; 1010%Q] == 0)%Q
  /\ pressure_trend_score (pressure_trend [1010%Q; 1010%Q; 1010%Q]) = 1.
Proof.
  assert (H : Forall (fun p => (p == 1010)%Q) [1010%Q; 1010%Q; 1010%Q])
    by (repeat constructor).
  split; [exact H|].
  exact (steady_pressure_scores_one [1010%Q; 1010%Q; 1010%Q] 1010 H).
Defined.

(** ** The document and the gate across runs *)

(** X19: after [mark_sent] the band reads as sent for that day, every
    other day and band reads as before, and marking twice is marking
    once. *)
Theorem mark_sent_round_trip (state : State) (today key day k : string) :
  sent_today (mark_sent state today key) day k
  = (if decide (day = today /\ k = key) then true else sent_today state day k)
  /\ mark_sent (mark_sent state today key) today key = mark_sent state today key.
Proof.
  split.
  - rewrite !sent_today_entry, entry_mark_sent. by case_decide.
  - unfold mark_sent. rewrite lookup_insert_eq. simpl.
    by rewrite !insert_insert_eq.
Qed.

Lemma ambers_none scored :
  Forall (fun r => best_score r <= 6) scored -> ambers scored = [].
Proof.
  unfold ambers. induction 1 as [|r rs Hr _ IH]; [reflexivity|].
  simpl. destruct (Z.leb_spec 7 (best_score r)); [lia | exact IH].
Qed.

(** X20: when no scored window reaches 7, a run calls [send_push] for
    no band, issues no request and writes nothing. *)
Theorem no_amber_window_no_dispatch (i : Inputs) (o : Outcome)
  (scored : list Scored) :
  main i = Ok o -> main_scored i = Ok scored ->
  Forall (fun r => best_score r <= 6) scored ->
  out_calls o = [] /\ out_posts o = [] /\ written o = None.
Proof.
  intros H Hs Hlow.
  pose proof (ambers_none scored Hlow) as Hamb.
  apply main_Ok in H as (scored' & Hs' & H).
  rewrite Hs in Hs'. injection Hs' as <-.
  destruct H as [[_ ->]|[_ ->]]; [done|].
  unfold main_gate. rewrite (greens_empty _ _ _ _ Hs), Hamb. done.
Qed.

Lemma no_amber_window_no_dispatch_witness :
  let i := ex_run ex_poor_met ex_cfg (fun _ => true) in
  main i = Ok (outcome_of (main i))
  /\ Forall (fun r => best_score r <= 6)
       (match main_scored i with Ok scored => scored | Raise _ => [] end)
  /\ out_calls (outcome_of (main i)) = []
  /\ out_posts (outcome_of (main i)) = []
  /\ written (outcome_of (main i)) = None.
Proof.
  assert (H : main (ex_run ex_poor_met ex_cfg (fun _ => true))
              = Ok (outcome_of (main (ex_run ex_poor_met ex_cfg (fun _ => true)))))
    by (vm_compute; reflexivity).
  assert (Hs : main_scored (ex_run ex_poor_met ex_cfg (fun _ => true))
               = Ok (match main_scored (ex_run ex_poor_met ex_cfg (fun _ => true))
                     with Ok scored => scored | Raise _ => [] end))
    by (vm_compute; reflexivity).
  assert (Hlow : Forall (fun r => best_score r <= 6)
                   (match main_scored (ex_run ex_poor_met ex_cfg (fun _ => true))
                    with Ok scored => scored | Raise _ => [] end)).
  { apply (bool_decide_unpack _). vm_compute. reflexivity. }
  split; [exact H|]. split; [exact Hlow|].
  exact (no_amber_window_no_dispatch _ _ _ H Hs Hlow).
Defined.

Lemma scored_best_range (i : Inputs) scored r :
  main_scored i = Ok scored -> r ∈ scored -> 3 <= best_score r <= 9.
Proof.
  intros Hs Hr. apply score_windows_Forall in Hs.
  rewrite Forall_forall in Hs. destruct (Hs r Hr) as (w & _ & Hw).
  apply score_window_range in Hw. unfold best_score. lia.
Qed.

Lemma amber_pick_is_best (i : Inputs) scored rec :
  main_scored i = Ok scored -> pick_best (ambers scored) = Some rec ->
  rec ∈ scored /\ 7 <= best_score rec <= 9
  /\ forall r', r' ∈ scored ->
       best_score r' <= best_score rec
       /\ (best_score r' = best_score rec -> rec_start rec <= rec_start r').
Proof.
  intros Hs Hpick.
  apply pick_best_Some in Hpick as (Hpin & Hmin & _).
  apply list_elem_of_In, filter_In in Hpin as [Hpin Hb].
  apply list_elem_of_In in Hpin.
  split; [exact Hpin|]. split; [lia|].
  intros r' Hr'. pose proof (scored_best_range i scored r' Hs Hr') as Hrange.
  destruct (decide (7 <= best_score r')) as [H7|H7]; [|lia].
  assert (Hamb : r' ∈ ambers scored).
  { apply list_elem_of_In, filter_In. split; [by apply list_elem_of_In | lia]. }
  apply Hmin, key_le_spec in Hamb. unfold sort_key in Hamb. simpl in Hamb. lia.
Qed.

(** X21: a request issued by a run is for the AMBER band, with
    credentials configured and AMBER not yet sent today; its window is
    one of the scored windows, scores 7 to 9, and no scored window of
    the run scores higher, or as high with an earlier start. *)
Theorem notified_window_is_best (i : Inputs) (o : Outcome)
  (scored : list Scored) (band : string) (rec : Scored) :
  main i = Ok o -> main_scored i = Ok scored ->
  (band, rec) ∈ out_posts o ->
  band = "AMBER" /\ rec ∈ scored /\ 7 <= best_score rec <= 9
  /\ configured (in_cfg i) = true
  /\ sent_today (load_state (in_disk i)) (in_today i) "amber" = false
  /\ forall r', r' ∈ scored ->
       best_score r' <= best_score rec
       /\ (best_score r' = best_score rec -> rec_start rec <= rec_start r').
Proof.
  intros H Hs Hin.
  apply main_Ok in H as (scored' & Hs' & H).
  rewrite Hs in Hs'. injection Hs' as <-.
  destruct H as [[_ ->]|[_ ->]]; [by apply not_elem_of_nil in Hin|].
  simpl in Hin. unfold main_gate in Hin.
  rewrite (greens_empty _ _ _ _ Hs), dispatch_eq in Hin. simpl in Hin.
  set (sa := sent_today _ _ "amber") in *.
  destruct (step_of (in_cfg i) (in_respond i) (pick_best (ambers scored)) sa [])
    eqn:Hk; simpl in Hin.
  - by apply not_elem_of_nil in Hin.
  - apply step_of_Failed in Hk as ([pick Hpick] & Hsa & _).
    rewrite Hpick in Hin.
    destruct (configured (in_cfg i)) eqn:Hc; [|by apply not_elem_of_nil in Hin].
    apply list_elem_of_singleton in Hin. injection Hin as -> ->.
    destruct (amber_pick_is_best i scored pick Hs Hpick) as (H1 & H2 & H3).
    done.
  - apply step_of_Acked in Hk as ([pick Hpick] & Hsa & Hc & _).
    rewrite Hpick in Hin.
    apply list_elem_of_singleton in Hin. injection Hin as -> ->.
    destruct (amber_pick_is_best i scored pick Hs Hpick) as (H1 & H2 & H3).
    done.
Qed.

Lemma notified_window_is_best_witness :
  main (ex_run ex_met ex_cfg (fun _ => true)) = Ok ex_outcome
  /\ ("AMBER", ex_scored) ∈ out_posts ex_outcome
  /\ 7 <= best_score ex_scored <= 9
  /\ configured ex_cfg = true.
Proof.
  assert (H : main (ex_run ex_met ex_cfg (fun _ => true)) = Ok ex_outcome)
    by (vm_compute; reflexivity).
  assert (Hs : main_scored (ex_run ex_met ex_cfg (fun _ => true))
               = Ok (match main_scored (ex_run ex_met ex_cfg (fun _ => true))
                     with Ok scored => scored | Raise _ => [] end))
    by (vm_compute; reflexivity).
  assert (Hin : ("AMBER", ex_scored) ∈ out_posts ex_outcome)
    by (vm_compute; left).
  split; [exact H|]. split; [exact Hin|].
  destruct (notified_window_is_best _ _ _ _ _ H Hs Hin)
    as (_ & _ & Hrange & Hc & _).
  split; [exact Hrange | exact Hc].
Defined.

Lemma written_marks_amber (i : Inputs) (o : Outcome) (st : State) :
  main i = Ok o -> written o = Some st ->
  sent_today st (in_today i) "amber" = true.
Proof.
  intros H Hw. apply main_Ok in H as (scored & Hs & [[_ ->]|[_ ->]]); [done|].
  simpl in Hw. destruct (g_updated _) eqn:Hu; [|done]. injection Hw as <-.
  apply updated_iff in Hu as [band Hb].
  assert (band = "AMBER") as ->.
  { revert Hb. unfold main_gate. rewrite (greens_empty _ _ _ _ Hs).
    rewrite dispatch_eq. simpl. intros Hb%calls_of_band. done. }
  by apply (acked_is_sent _ _ _ _ _ _ _ _ "AMBER" "amber"); auto.
Qed.

(** X22: when a run has written its document, a later run of the same
    day that loads this document calls [send_push] for no band, issues
    no request and writes nothing, whatever its data and provider. *)
Theorem second_run_same_day_is_silent (i1 i2 : Inputs) (o1 o2 : Outcome)
  (st : State) :
  main i1 = Ok o1 -> written o1 = Some st ->
  in_disk i2 = Document st -> in_today i2 = in_today i1 ->
  main i2 = Ok o2 ->
  out_calls o2 = [] /\ out_posts o2 = [] /\ written o2 = None.
Proof.
  intros H1 Hw Hd Ht H2.
  pose proof (written_marks_amber i1 o1 st H1 Hw) as Hsent.
  apply main_Ok in H2 as (scored & Hs & [[_ ->]|[_ ->]]); [done|].
  unfold main_gate. rewrite (greens_empty _ _ _ _ Hs).
  rewrite Hd, Ht. simpl load_state. rewrite Hsent.
  rewrite dispatch_eq. simpl.
  assert (Hk : step_of (in_cfg i2) (in_respond i2) (pick_best (ambers scored))
                 true [] = Skipped) by (apply step_of_Skipped; auto).
  rewrite Hk. done.
Qed.

Lemma second_run_same_day_is_silent_witness :
  main (ex_run ex_met ex_cfg (fun _ => true)) = Ok ex_outcome
  /\ written ex_outcome = Some ex_written
  /\ main ex_second_run = Ok (outcome_of (main ex_second_run))
  /\ out_calls (outcome_of (main ex_second_run)) = []
  /\ out_posts (outcome_of (main ex_second_run)) = []
  /\ written (outcome_of (main ex_second_run)) = None.
Proof.
  assert (H1 : main (ex_run ex_met ex_cfg (fun _ => true)) = Ok ex_outcome)
    by (vm_compute; reflexivity).
  assert (Hw : written ex_outcome = Some ex_written)
    by (vm_compute; reflexivity).
  assert (H2 : main ex_second_run = Ok (outcome_of (main ex_second_run)))
    by (vm_compute; reflexivity).
  split; [exact H1|]. split; [exact Hw|]. split; [exact H2|].
  exact (second_run_same_day_is_silent
           (ex_run ex_met ex_cfg (fun _ => true)) ex_second_run
           ex_outcome (outcome_of (main ex_second_run)) ex_written
           H1 Hw eq_refl eq_refl H2).
Defined.


(** ** Tide extremes *)

#[local] Instance Zle_total : Total Z.le.
Proof. intros x y. lia. Qed.

(** X24: the high tides returned are in ascending order; each is the
    date of an entry of the provider's list whose type is "high" in
    any letter case, and with an API key every such entry is returned,
    as often as it occurs. *)
Theorem high_tides_sorted (key : string) (resp : TideResponse) :
  let highs := fetch_worldtides_extremes key resp in
  StronglySorted Z.le highs
  /\ (forall t, t ∈ highs ->
        key <> EmptyString
        /\ exists exs ex, resp = TideData exs /\ ex ∈ exs
             /\ is_high ex = true /\ ext_date ex = t)
  /\ (forall exs, key <> EmptyString -> resp = TideData exs ->
        highs ≡ₚ ext_date <$> List.filter is_high exs).
Proof.
  unfold fetch_worldtides_extremes, nonempty, sorted_instants.
  destruct (String.eqb_spec key EmptyString) as [->|Hk]; simpl.
  - split; [constructor|]. split; [by intros t ?%not_elem_of_nil | done].
  - destruct resp as [|exs].
    + split; [constructor|]. split; [by intros t ?%not_elem_of_nil | done].
    + split; [apply (StronglySorted_merge_sort Z.le)|]. split.
      * intros t Ht. rewrite merge_sort_Permutation in Ht.
        apply list_elem_of_fmap in Ht as (ex & -> & Hex).
        apply list_elem_of_In, filter_In in Hex as [Hex Hh].
        split; [done|]. exists exs, ex. by rewrite list_elem_of_In.
      * intros exs' _ [= <-]. apply merge_sort_Permutation.
Qed.

Lemma high_tides_sorted_witness :
  fetch_worldtides_extremes "key" (TideData ex_extremes) = [hm 5 50; hm 18 10]
  /\ StronglySorted Z.le (fetch_worldtides_extremes "key" (TideData ex_extremes))
  /\ fetch_worldtides_extremes "key" (TideData ex_extremes)
     ≡ₚ ext_date <$> List.filter is_high ex_extremes.
Proof.
  split; [reflexivity|].
  destruct (high_tides_sorted "key" (TideData ex_extremes)) as (Hs & _ & Hp).
  split; [exact Hs|]. apply Hp; [discriminate | reflexivity].
Defined.

(** X25: no high tide is returned exactly when the API key is missing,
    the request fails or the list has no "high" entry; the run then
    falls back to the approximate tides, and uses the returned tides
    otherwise. *)
Theorem no_high_tide_uses_fallback (now : datetime) (key : string)
  (resp : TideResponse) :
  (fetch_worldtides_extremes key resp = []
   <-> key = EmptyString \/ resp = TideFailure
       \/ exists exs, resp = TideData exs
                      /\ Forall (fun ex => is_high ex = false) exs)
  /\ (fetch_worldtides_extremes key resp = [] ->
      highs_or_fallback now (fetch_worldtides_extremes key resp)
      = approx_hts now)
  /\ (fetch_worldtides_extremes key resp <> [] ->
      highs_or_fallback now (fetch_worldtides_extremes key resp)
      = fetch_worldtides_extremes key resp).
Proof.
  split; [|split].
  - unfold fetch_worldtides_extremes, nonempty, sorted_instants.
    destruct (String.eqb_spec key EmptyString) as [->|Hk]; simpl;
      [split; [by left | done]|].
    destruct resp as [|exs]; [split; [by right; left | done]|]. split.
    + intros He. right. right. exists exs. split; [done|].
      apply Forall_forall. intros ex Hex.
      destruct (is_high ex) eqn:Hh; [|done]. exfalso.
      assert (Hin : ext_date ex
                      ∈ merge_sort Z.le (ext_date <$> List.filter is_high exs)).
      { rewrite merge_sort_Permutation. apply list_elem_of_fmap.
        exists ex. split; [done|]. apply list_elem_of_In, filter_In.
        by rewrite <- list_elem_of_In. }
      rewrite He in Hin. by apply not_elem_of_nil in Hin.
    + intros [?|[?|(exs' & [= <-] & Hall)]]; try done.
      assert (List.filter is_high exs = []) as ->; [|done].
      induction Hall as [|ex exs' Hex _ IH]; [done|]. simpl. by rewrite Hex.
  - by intros ->.
  - intros Hne. unfold highs_or_fallback.
    by destruct (fetch_worldtides_extremes key resp).
Qed.

Lemma no_high_tide_uses_fallback_witness :
  fetch_worldtides_extremes "key"
    (TideData [ {| ext_type := Some "low"; ext_date := hm 12 0 |} ]) = []
  /\ highs_or_fallback (hm 3 0)
       (fetch_worldtides_extremes "key"
          (TideData [ {| ext_type := Some "low"; ext_date := hm 12 0 |} ]))
     = approx_hts (hm 3 0).
Proof.
  assert (H : fetch_worldtides_extremes "key"
                (TideData [ {| ext_type := Some "low"; ext_date := hm 12 0 |} ])
              = []) by reflexivity.
  split; [exact H|].
  exact (proj1 (proj2 (no_high_tide_uses_fallback (hm 3 0) "key"
           (TideData [ {| ext_type := Some "low"; ext_date := hm 12 0 |} ])))
           H).
Defined.
